(** * dns-guardian: a shallow embedding of [src/background.js]

    The extension intercepts web requests, derives the root domain of the
    requested hostname, asks Google's DNS-over-HTTPS service for the NS
    records of both names and cancels the request when the two answers
    indicate that the subdomain is delegated elsewhere.

    Modelling choices:
    - JavaScript strings are [string]s (sequences of 8-bit characters);
      [toLowerCase] folds the ASCII letters, which is what it does on
      hostnames.
    - [Map] objects are [gmap]s, the [Set] of root domains is a [gset].
    - [Date.now()] readings are integers (milliseconds).
    - An [async] function is a resumption: a tree of the effects it
      performs, suspended at every [await fetch(..)].  The same tree is
      run either on its own against a scripted environment ([run]) or
      interleaved with other requests by the event loop ([loop_step]). *)

From Stdlib Require Import ZArith String Ascii Bool List Lia.
From stdpp Require Import base gmap strings list.

Local Open Scope Z_scope.

(** ** JavaScript string and array primitives used by the extension *)

Module Js.

Definition lower_ascii (c : ascii) : ascii :=
  let n := nat_of_ascii c in
  if Nat.leb 65 n && Nat.leb n 90 then ascii_of_nat (n + 32) else c.

(** [s.toLowerCase()] *)
Fixpoint toLowerCase (s : string) : string :=
  match s with
  | EmptyString => EmptyString
  | String c rest => String (lower_ascii c) (toLowerCase rest)
  end.

(** A string used as a condition: only the empty string is falsy. *)
Definition truthy (s : string) : bool :=
  match s with
  | EmptyString => false
  | String _ _ => true
  end.

(** [s.endsWith(suffix)] *)
Definition endsWith (s suffix : string) : bool :=
  let n := String.length s in
  let m := String.length suffix in
  if Nat.leb m n then String.eqb (substring (n - m) m s) suffix else false.

Definition dot : ascii := "."%char.

(** [s.split('.')]: never empty, [''.split('.')] is [['']]. *)
Fixpoint split (s : string) : list string :=
  match s with
  | EmptyString => [EmptyString]
  | String c rest =>
      if Ascii.eqb c dot then EmptyString :: split rest
      else match split rest with
           | [] => [String c EmptyString]
           | p :: ps => String c p :: ps
           end
  end.

(** [parts.join('.')] *)
Fixpoint join (parts : list string) : string :=
  match parts with
  | [] => EmptyString
  | [p] => p
  | p :: ps => String.append p (String dot (join ps))
  end.

(** [parts.slice(-n)]: the last [n] elements, all of them when there
    are fewer. *)
Definition slice_last (n : nat) {A} (parts : list A) : list A :=
  drop (length parts - n) parts.

(** [arr.includes(x)] on an array of strings *)
Definition includes (arr : list string) (x : string) : bool :=
  existsb (String.eqb x) arr.

(** [arr.some(p)] *)
Definition some {A} (p : A -> bool) (arr : list A) : bool := existsb p arr.

(** No ['.'] occurs in the string. *)
Fixpoint dotless (s : string) : bool :=
  match s with
  | EmptyString => true
  | String c rest => negb (Ascii.eqb c dot) && dotless rest
  end.

End Js.

(** ** Domain utilities *)

(** [getRootDomain], background.js lines 72-81. *)
Definition getRootDomain (domain : string) : string :=
  let parts := Js.split domain in
  if Nat.leb (length parts) 2 then domain
  else Js.join (Js.slice_last 2 parts).

(** ** The DNS-over-HTTPS response and its normalised form *)

(** One record of the [Answer] or [Authority] array.  [name] and [data]
    may be missing from the JSON object, in which case reading them gives
    [undefined] and calling [.toLowerCase()] on it throws. *)
Record DnsRecord := {
  rec_type : Z;
  rec_name : option string;
  rec_data : option string
}.

(** The JSON body of a reply of [https://dns.google/resolve]. *)
Record DnsJson := {
  Status : Z;
  Answer : option (list DnsRecord);
  Authority : option (list DnsRecord)
}.

(** What [await fetch(url)] followed by [await response.json()] gives:
    the fetch rejects, or a response arrives with an HTTP status and a
    body that parses ([Some]) or does not ([None]). *)
Inductive FetchOutcome :=
| FetchRejected
| FetchResponse (status : Z) (body : option DnsJson).

(** [response.ok]: the status is in the range 200-299. *)
Definition response_ok (status : Z) : bool :=
  (200 <=? status) && (status <=? 299).

(** The value [getDnsServers] resolves to. [authority] is [null] or a
    string. *)
Record NSLookupResult := {
  servers : list string;
  authority : option string
}.

Definition emptyResult : NSLookupResult :=
  {| servers := []; authority := None |}.

(** Exceptions that can be raised inside the [try] block. *)
Inductive JsError :=
| NetworkError
| HttpError (status : Z)
| SyntaxError
| TypeError.

Inductive Completion (A : Type) :=
| Normal (a : A)
| Throw (e : JsError).
Arguments Normal {A} a.
Arguments Throw {A} e.

#[global] Instance Completion_ret : MRet Completion := @Normal.
#[global] Instance Completion_bind : MBind Completion :=
  fun A B f m => match m with Normal a => f a | Throw e => Throw e end.

(** [records.filter(record => record.type === 2)
            .map(record => record.data.toLowerCase())] *)
Fixpoint lowerData (records : list DnsRecord) : Completion (list string) :=
  match records with
  | [] => Normal []
  | record :: rest =>
      match rec_data record with
      | None => Throw TypeError
      | Some d => ds ← lowerData rest; Normal (Js.toLowerCase d :: ds)
      end
  end.

Definition nsRecords (records : list DnsRecord) : Completion (list string) :=
  lowerData (List.filter (fun record => rec_type record =? 2) records).

(** A condition on [authority]: [null] and [''] are falsy. *)
Definition truthy_authority (a : option string) : bool :=
  match a with
  | None => false
  | Some s => Js.truthy s
  end.

(** The body of the [try] block of [getDnsServers] (lines 10-64) once the
    fetch has settled.  An inner [Some r] stands for [return r], [None]
    for falling through to the next statement. *)
Definition getDnsServers_try (o : FetchOutcome) : Completion NSLookupResult :=
  match o with
  | FetchRejected => Throw NetworkError
  | FetchResponse status body =>
      if negb (response_ok status) then Throw (HttpError status)
      else
        match body with
        | None => Throw SyntaxError
        | Some data =>
            if negb (Status data =? 0) then Normal emptyResult
            else
              fromAnswer ←
                match Answer data with
                | Some records =>
                    servers ← nsRecords records;
                    if Nat.ltb 0 (length servers)
                    then Normal (Some {| servers := servers; authority := None |})
                    else Normal None
                | None => Normal None
                end;
              match fromAnswer with
              | Some r => Normal r
              | None =>
                  fromAuthority ←
                    match Authority data with
                    | Some records =>
                        let soaRecord :=
                          List.find (fun record => rec_type record =? 6) records in
                        authority ←
                          match soaRecord with
                          | Some r =>
                              match rec_name r with
                              | Some n => Normal (Some (Js.toLowerCase n))
                              | None => Throw TypeError
                              end
                          | None => Normal None
                          end;
                        servers ← nsRecords records;
                        if Nat.ltb 0 (length servers)
                        then Normal (Some {| servers := servers; authority := authority |})
                        else if truthy_authority authority
                        then Normal (Some {| servers := []; authority := authority |})
                        else Normal None
                    | None => Normal None
                    end;
                  match fromAuthority with
                  | Some r => Normal r
                  | None => Normal emptyResult
                  end
              end
        end
  end.

(** The [catch] block (lines 65-69). *)
Definition getDnsServers_catch (c : Completion NSLookupResult) : NSLookupResult :=
  match c with
  | Normal r => r
  | Throw _ => emptyResult
  end.

(** What [getDnsServers] resolves to when its fetch settles with [o]. *)
Definition lookupResult (o : FetchOutcome) : NSLookupResult :=
  getDnsServers_catch (getDnsServers_try o).

(** The query URL built on line 11. *)
Definition dohUrl (domain : string) : string :=
  String.append "https://dns.google/resolve?name="
    (String.append domain "&type=NS").

(** ** Extension state *)

(** An entry of [dnsCache]. *)
Record CacheEntry := {
  shouldBlock : bool;
  timestamp : Z
}.

Definition cacheTTL : Z := 5 * 60 * 1000.

(** The module-level objects: [dnsCache], [activeRootDomains],
    [blockingDecisions]. *)
Record Ext := {
  dnsCache : gmap string CacheEntry;
  activeRootDomains : gset string;
  blockingDecisions : gmap string bool
}.

Definition initialExt : Ext :=
  {| dnsCache := ∅; activeRootDomains := ∅; blockingDecisions := ∅ |}.

Definition set_dnsCache (st : Ext) (c : gmap string CacheEntry) : Ext :=
  {| dnsCache := c;
     activeRootDomains := activeRootDomains st;
     blockingDecisions := blockingDecisions st |}.

Definition set_activeRootDomains (st : Ext) (a : gset string) : Ext :=
  {| dnsCache := dnsCache st;
     activeRootDomains := a;
     blockingDecisions := blockingDecisions st |}.

Definition set_blockingDecisions (st : Ext) (d : gmap string bool) : Ext :=
  {| dnsCache := dnsCache st;
     activeRootDomains := activeRootDomains st;
     blockingDecisions := d |}.

(** ** Asynchronous functions as resumptions *)

(** The effects an [async] function of the extension performs.  Only
    [AwaitFetch] suspends it; the others happen within the current turn
    of the event loop. *)
Inductive async (A : Type) : Type :=
| Ret (a : A)
| DateNow (k : Z -> async A)
| CacheGet (key : string) (k : option CacheEntry -> async A)
| CacheSet (key : string) (entry : CacheEntry) (k : async A)
| DecisionSet (key : string) (decision : bool) (k : async A)
| AwaitFetch (url : string) (k : FetchOutcome -> async A).
Arguments Ret {A} a.
Arguments DateNow {A} k.
Arguments CacheGet {A} key k.
Arguments CacheSet {A} key entry k.
Arguments DecisionSet {A} key decision k.
Arguments AwaitFetch {A} url k.

Fixpoint bind {A B} (m : async A) (f : A -> async B) : async B :=
  match m with
  | Ret a => f a
  | DateNow k => DateNow (fun now => bind (k now) f)
  | CacheGet key k => CacheGet key (fun e => bind (k e) f)
  | CacheSet key entry k => CacheSet key entry (bind k f)
  | DecisionSet key decision k => DecisionSet key decision (bind k f)
  | AwaitFetch url k => AwaitFetch url (fun o => bind (k o) f)
  end.

#[global] Instance async_ret : MRet async := @Ret.
#[global] Instance async_bind : MBind async := fun A B f m => bind m f.

Definition dateNow : async Z := DateNow Ret.
Definition cacheGet (key : string) : async (option CacheEntry) := CacheGet key Ret.
Definition cacheSet (key : string) (e : CacheEntry) : async unit :=
  CacheSet key e (Ret tt).
Definition decisionSet (key : string) (b : bool) : async unit :=
  DecisionSet key b (Ret tt).

(** [getDnsServers], lines 8-70. *)
Definition getDnsServers (domain : string) : async NSLookupResult :=
  AwaitFetch (dohUrl domain) (fun o => Ret (lookupResult o)).

(** The test of lines 115-117 on the subdomain's authority. *)
Definition foreignAuthority (a : option string) (rootDomain : string) : bool :=
  match a with
  | None => false
  | Some auth =>
      Js.truthy auth
      && negb (String.eqb auth rootDomain)
      && negb (Js.endsWith auth (String.append "." rootDomain))
  end.

(** Lines 93-147 of [shouldBlockDomain]: what follows the cache check. *)
Definition shouldBlockDomain_uncached (domain : string) : async bool :=
  let rootDomain := getRootDomain domain in
  if String.eqb domain rootDomain then Ret false
  else
    domainResult ← getDnsServers domain;
    rootResult ← getDnsServers rootDomain;
    if Nat.eqb (length (servers rootResult)) 0 then Ret false
    else if foreignAuthority (authority domainResult) rootDomain then Ret true
    else if Nat.ltb 0 (length (servers domainResult)) then
      let hasCommonNameserver :=
        Js.some (fun ns => Js.includes (servers rootResult) ns)
                (servers domainResult) in
      if negb hasCommonNameserver then Ret true else Ret false
    else
      let shouldBlock := true in
      now ← dateNow;
      cacheSet domain {| shouldBlock := shouldBlock; timestamp := now |};;
      Ret shouldBlock.

(** [shouldBlockDomain], lines 83-147. [Date.now()] is read only when
    [dnsCache] has an entry for the domain. *)
Definition shouldBlockDomain (domain : string) : async bool :=
  cachedResult ← cacheGet domain;
  match cachedResult with
  | Some entry =>
      now ← dateNow;
      if now - timestamp entry <? cacheTTL then Ret (shouldBlock entry)
      else shouldBlockDomain_uncached domain
  | None => shouldBlockDomain_uncached domain
  end.

(** ** Running one call against a scripted environment *)

(** Turn [n] of the event loop reads [clock n] from [Date.now()]; a fetch
    issued in turn [n] settles with [network n url] and its continuation
    runs in turn [n + 1]. *)
Record Env := {
  clock : nat -> Z;
  network : nat -> string -> FetchOutcome
}.

Record Run (A : Type) := {
  value : A;
  final : Ext;
  turn : nat;
  calls : list (string * FetchOutcome)
}.
Arguments value {A} r.
Arguments final {A} r.
Arguments turn {A} r.
Arguments calls {A} r.

(** [run env p n st] runs [p] to completion, alone, from turn [n] and
    state [st]; [calls] lists the network calls it made, in order, with
    the way each settled. *)
Fixpoint run {A} (env : Env) (p : async A) (n : nat) (st : Ext) : Run A :=
  match p with
  | Ret a => {| value := a; final := st; turn := n; calls := [] |}
  | DateNow k => run env (k (clock env n)) n st
  | CacheGet key k => run env (k (dnsCache st !! key)) n st
  | CacheSet key entry k =>
      run env k n (set_dnsCache st (<[key := entry]> (dnsCache st)))
  | DecisionSet key decision k =>
      run env k n (set_blockingDecisions st (<[key := decision]> (blockingDecisions st)))
  | AwaitFetch url k =>
      let o := network env n url in
      let r := run env (k o) (S n) st in
      {| value := value r; final := final r; turn := turn r;
         calls := (url, o) :: calls r |}
  end.

(** The number of network calls for [name] among [cs]. *)
Definition callsFor (name : string) (cs : list (string * FetchOutcome)) : nat :=
  length (List.filter (fun c => String.eqb (fst c) (dohUrl name)) cs).

(** ** The listeners *)

Record BlockingResponse := { cancel : bool }.

(** What the [onBeforeRequest] listener returns: a plain response, or a
    promise whose executor evaluates [domain]. *)
Inductive ListenerReturn :=
| Value (r : BlockingResponse)
| PromiseFor (domain : string).

(** The executor of the promise of lines 250-269.  Nothing in
    [shouldBlockDomain] throws, so the [catch] of line 264 is dead. *)
Definition decisionPromise (domain : string) : async BlockingResponse :=
  shouldBlock ← shouldBlockDomain domain;
  decisionSet domain shouldBlock;;
  Ret {| cancel := shouldBlock |}.

Section Listeners.

(** [new URL(url).hostname] of the platform: [None] when the
    constructor throws. *)
Variable URL_hostname : string -> option string.

(** [extractDomain], lines 149-158. *)
Definition extractDomain (url : string) : option string :=
  match URL_hostname url with
  | Some hostname => Some hostname
  | None => None
  end.

(** A condition on the result of [extractDomain]: [null] and [''] are
    falsy. *)
Definition truthy_domain (d : option string) : bool :=
  match d with
  | None => false
  | Some s => Js.truthy s
  end.

(** The [onBeforeRequest] listener, lines 210-270. *)
Definition onBeforeRequest (st : Ext) (url : string) : ListenerReturn :=
  match extractDomain url with
  | None => Value {| cancel := false |}
  | Some domain =>
      if negb (Js.truthy domain) then Value {| cancel := false |}
      else if String.eqb domain "dns.google" then Value {| cancel := false |}
      else
        let requestRootDomain := getRootDomain domain in
        if negb (bool_decide (requestRootDomain ∈ activeRootDomains st))
        then Value {| cancel := false |}
        else if String.eqb domain requestRootDomain
        then Value {| cancel := false |}
        else
          match blockingDecisions st !! domain with
          | Some cachedDecision => Value {| cancel := cachedDecision |}
          | None => PromiseFor domain
          end
  end.

(** The [onBeforeSendHeaders] listener, lines 280-289: [Some] response
    or [undefined]. *)
Definition onBeforeSendHeaders (st : Ext) (url : string) : option BlockingResponse :=
  match extractDomain url with
  | None => None
  | Some domain =>
      if negb (Js.truthy domain) then None
      else
        match blockingDecisions st !! domain with
        | Some true => Some {| cancel := true |}
        | _ => None
        end
  end.

(** The root domains of a list of tabs (lines 177-185 and 194-201);
    a tab may have no [url]. *)
Definition tabRootDomains (tabs : list (option string)) : gset string :=
  foldl (fun acc tab =>
           match tab with
           | Some url =>
               if Js.truthy url then
                 match extractDomain url with
                 | Some domain =>
                     if Js.truthy domain then {[ getRootDomain domain ]} ∪ acc
                     else acc
                 | None => acc
                 end
               else acc
           | None => acc
           end) ∅ tabs.

(** [chrome.tabs.onUpdated], lines 161-171. *)
Definition onTabUpdated (st : Ext) (changeInfo_url : option string) : Ext :=
  set_activeRootDomains st
    (tabRootDomains [changeInfo_url] ∪ activeRootDomains st).

(** The callback of the query made by [chrome.tabs.onRemoved], lines
    176-189. *)
Definition onTabsAfterRemoval (st : Ext) (tabs : list (option string)) : Ext :=
  set_activeRootDomains st (tabRootDomains tabs).

(** The callback of the start-up query, lines 193-203. *)
Definition onTabsAtStartup (st : Ext) (tabs : list (option string)) : Ext :=
  set_activeRootDomains st (tabRootDomains tabs ∪ activeRootDomains st).

(** ** The event loop *)

(** JavaScript runs a listener call, and each continuation of an [async]
    function, without interruption up to the next [await] of a fetch.  The
    promise executor of the listener runs inside the listener call, so the
    first fetch of an evaluation is issued before the next event is
    delivered; the steps that follow the last fetch, or a cache hit, end the
    turn in which they start. *)

(** A suspended evaluation: the promise executor for [task_domain],
    waiting for the fetch of [task_url] to settle. *)
Record Task := {
  task_domain : string;
  task_url : string;
  task_k : FetchOutcome -> async BlockingResponse
}.

Inductive Progress :=
| Done (r : BlockingResponse)
| Awaiting (url : string) (k : FetchOutcome -> async BlockingResponse).

(** Run a resumption within one turn, whose clock reads [now], until it
    returns or awaits a fetch. *)
Fixpoint exec (now : Z) (p : async BlockingResponse) (st : Ext) : Ext * Progress :=
  match p with
  | Ret r => (st, Done r)
  | DateNow k => exec now (k now) st
  | CacheGet key k => exec now (k (dnsCache st !! key)) st
  | CacheSet key entry k =>
      exec now k (set_dnsCache st (<[key := entry]> (dnsCache st)))
  | DecisionSet key decision k =>
      exec now k (set_blockingDecisions st (<[key := decision]> (blockingDecisions st)))
  | AwaitFetch url k => (st, Awaiting url k)
  end.

(** The extension between two turns.  [evaluations], [fetches] and
    [responses] are histories kept for the statements: the domains for
    which [shouldBlockDomain] was called, the URLs fetched, and the
    response each request for a domain received. *)
Record Loop := {
  ext : Ext;
  pending : list Task;
  evaluations : list string;
  fetches : list string;
  responses : list (string * BlockingResponse)
}.

Definition initialLoop : Loop :=
  {| ext := initialExt; pending := []; evaluations := []; fetches := [];
     responses := [] |}.

Inductive Event :=
| WebRequest (url : string) (now : Z)
| FetchSettled (i : nat) (o : FetchOutcome) (now : Z)
| TabUpdated (changeInfo_url : option string)
| TabsAfterRemoval (tabs : list (option string))
| TabsAtStartup (tabs : list (option string)).

(** Continue the evaluation of [domain] with [p] in a turn at [now]. *)
Definition advance (L : Loop) (others : list Task) (domain : string)
    (now : Z) (p : async BlockingResponse) : Loop :=
  match exec now p (ext L) with
  | (st, Done r) =>
      {| ext := st; pending := others;
         evaluations := evaluations L; fetches := fetches L;
         responses := responses L ++ [(domain, r)] |}
  | (st, Awaiting url k) =>
      {| ext := st;
         pending := others ++ [{| task_domain := domain; task_url := url; task_k := k |}];
         evaluations := evaluations L; fetches := fetches L ++ [url];
         responses := responses L |}
  end.

Definition with_ext (L : Loop) (st : Ext) : Loop :=
  {| ext := st; pending := pending L; evaluations := evaluations L;
     fetches := fetches L; responses := responses L |}.

(** One turn of the event loop. *)
Definition loop_step (L : Loop) (ev : Event) : Loop :=
  match ev with
  | WebRequest url now =>
      match onBeforeRequest (ext L) url with
      | Value r =>
          {| ext := ext L; pending := pending L;
             evaluations := evaluations L; fetches := fetches L;
             responses := responses L ++ [(default ""%string (extractDomain url), r)] |}
      | PromiseFor domain =>
          advance
            {| ext := ext L; pending := pending L;
               evaluations := evaluations L ++ [domain];
               fetches := fetches L; responses := responses L |}
            (pending L) domain now (decisionPromise domain)
      end
  | FetchSettled i o now =>
      match pending L !! i with
      | Some t => advance L (delete i (pending L)) (task_domain t) now (task_k t o)
      | None => L
      end
  | TabUpdated changeInfo_url => with_ext L (onTabUpdated (ext L) changeInfo_url)
  | TabsAfterRemoval tabs => with_ext L (onTabsAfterRemoval (ext L) tabs)
  | TabsAtStartup tabs => with_ext L (onTabsAtStartup (ext L) tabs)
  end.

Definition loop_run (L : Loop) (evs : list Event) : Loop :=
  foldl loop_step L evs.

(** The states the extension can be in. *)
Inductive Reachable : Loop -> Prop :=
| Reachable_initial : Reachable initialLoop
| Reachable_step L ev : Reachable L -> Reachable (loop_step L ev).

(** The number of suspended evaluations of [domain]. *)
Definition inFlight (domain : string) (L : Loop) : nat :=
  length (List.filter (fun t => String.eqb (task_domain t) domain) (pending L)).

(** The number of occurrences of [x] in a history. *)
Definition occurrences (x : string) (h : list string) : nat :=
  length (List.filter (String.eqb x) h).

End Listeners.

(** A small stand-in for the platform's URL parser, used to run closed
    examples: the text between ["://"] and the next ['/'], [':'], ['?'] or
    ['#'], in lower case; [None] when there is no ["://"]. *)
Fixpoint hostEnd (s : string) : string :=
  match s with
  | EmptyString => EmptyString
  | String c rest =>
      if Ascii.eqb c "/" || Ascii.eqb c ":" || Ascii.eqb c "?" || Ascii.eqb c "#"
      then EmptyString
      else String c (hostEnd rest)
  end.

Definition simpleHostname (url : string) : option string :=
  match String.index 0 "://" url with
  | Some i =>
      Some (Js.toLowerCase
              (hostEnd (substring (i + 3) (String.length url - (i + 3)) url)))
  | None => None
  end.

(** ** Vocabulary of the statements *)

(** The verdict the cache check of lines 87-91 returns at time [now], if
    any: [dnsCache] has an entry for the domain and it is younger than
    [cacheTTL]. *)
Definition cachedVerdict (st : Ext) (domain : string) (now : Z) : option bool :=
  match dnsCache st !! domain with
  | Some entry =>
      if now - timestamp entry <? cacheTTL then Some (shouldBlock entry) else None
  | None => None
  end.

(** The call [r] of [shouldBlockDomain domain] reached lines 99-100: it
    looked up the domain and its root and obtained [domainResult] and
    [rootResult]. *)
Definition lookedUp (r : Run bool) (domain : string)
    (domainResult rootResult : NSLookupResult) : Prop :=
  exists o1 o2,
    calls r = [ (dohUrl domain, o1); (dohUrl (getRootDomain domain), o2) ]
    /\ domainResult = lookupResult o1
    /\ rootResult = lookupResult o2.

(** Every key the resumption stores under, in [dnsCache] or in
    [blockingDecisions], satisfies [P]. *)
Fixpoint storesUnder {A} (P : string -> Prop) (p : async A) : Prop :=
  match p with
  | Ret _ => True
  | DateNow k => forall now, storesUnder P (k now)
  | CacheGet _ k => forall e, storesUnder P (k e)
  | CacheSet key _ k => P key /\ storesUnder P k
  | DecisionSet key _ k => P key /\ storesUnder P k
  | AwaitFetch _ k => forall o, storesUnder P (k o)
  end.

(** A hostname with more labels than its root domain. *)
Definition isSubdomain (domain : string) : Prop :=
  domain <> getRootDomain domain.

(** Both maps are keyed by subdomains only. *)
Definition keyedBySubdomains (st : Ext) : Prop :=
  (forall k e, dnsCache st !! k = Some e -> isSubdomain k)
  /\ (forall k b, blockingDecisions st !! k = Some b -> isSubdomain k).

(** Every key stored in either map is a proper subdomain, and so will be
    every key the suspended evaluations store under. *)
Definition LoopInv (L : Loop) : Prop :=
  keyedBySubdomains (ext L)
  /\ Forall (fun t => forall o, storesUnder isSubdomain (task_k t o)) (pending L).

(** ** Scripted replies for closed examples *)

Definition nsRecord (name data : string) : DnsRecord :=
  {| rec_type := 2; rec_name := Some name; rec_data := Some data |}.

Definition soaRecord (name data : string) : DnsRecord :=
  {| rec_type := 6; rec_name := Some name; rec_data := Some data |}.

Definition reply (answer authority : option (list DnsRecord)) : FetchOutcome :=
  FetchResponse 200
    (Some {| Status := 0; Answer := answer; Authority := authority |}).

Fixpoint replyFor (table : list (string * FetchOutcome)) (url : string) : FetchOutcome :=
  match table with
  | [] => FetchRejected
  | (name, o) :: rest =>
      if String.eqb url (dohUrl name) then o else replyFor rest url
  end.

(** One second per turn, and the same reply for a name at every turn. *)
Definition scripted (table : list (string * FetchOutcome)) : Env :=
  {| clock := fun n => Z.of_nat n * 1000;
     network := fun _ url => replyFor table url |}.

(** The replies used in the examples.  [a.com] is served by
    [ns1.reg.com]; [b.com] has no entry, so its lookup is rejected. *)
Definition demoTable : list (string * FetchOutcome) :=
  [ ("a.com", reply (Some [nsRecord "a.com" "ns1.reg.com"]) None);
    ("sub.a.com", reply (Some [nsRecord "sub.a.com" "NS1.Reg.com"]) None);
    ("other.a.com", reply (Some [nsRecord "other.a.com" "ns9.other.net"]) None);
    ("evil.a.com", reply None (Some [soaRecord "ThirdParty.net" "ns.thirdparty.net"]));
    ("x.a.com", reply (Some []) (Some []));
    ("y.a.com", reply None None);
    ("odd.a.com",
     reply None (Some [soaRecord "" "a.root"; nsRecord "odd.a.com" "ns1.reg.com"]));
    ("sub.b.com", reply (Some [nsRecord "sub.b.com" "ns1.reg.com"]) None) ]%string.

Definition demoEnv : Env := scripted demoTable.

(** A tab on [www.a.com] and one on [dns.google] are open; a request for
    [x.a.com] has been evaluated (its own lookup gave nothing, the root's
    gave [ns1.reg.com]) and its verdict stored. *)
Definition tabsOpen : Loop :=
  loop_run simpleHostname initialLoop
    [ TabUpdated (Some "https://www.a.com/"%string);
      TabUpdated (Some "https://dns.google/query"%string) ].

Definition demoLoop : Loop :=
  loop_run simpleHostname tabsOpen
    [ WebRequest "https://x.a.com/pixel.gif" 0;
      FetchSettled 0 (reply (Some []) (Some [])) 1000;
      FetchSettled 0 (reply (Some [nsRecord "a.com" "ns1.reg.com"]) None) 2000 ].

(** Two requests for [x.a.com] arrive before any lookup settles. *)
Definition twoRequests : Loop :=
  loop_run simpleHostname tabsOpen
    [ WebRequest "https://x.a.com/pixel.gif" 0;
      WebRequest "https://x.a.com/pixel.gif" 1 ].

(** The first evaluation's lookup of [x.a.com] is rejected, the second's
    succeeds. *)
Definition twoRequestsSettled : Loop :=
  loop_run simpleHostname twoRequests
    [ FetchSettled 0 FetchRejected 2;
      FetchSettled 1 (reply (Some [nsRecord "a.com" "ns1.reg.com"]) None) 3;
      FetchSettled 0 (reply (Some [nsRecord "x.a.com" "ns1.reg.com"]) None) 4;
      FetchSettled 0 (reply (Some [nsRecord "a.com" "ns1.reg.com"]) None) 5 ].

(** ** Vocabulary of the further properties *)

(** Lines 41-42: the lower-cased name of the first SOA record, if any. *)
Definition soaAuthority (records : list DnsRecord) : Completion (option string) :=
  match List.find (fun record => rec_type record =? 6) records with
  | Some r =>
      match rec_name r with
      | Some n => Normal (Some (Js.toLowerCase n))
      | None => Throw TypeError
      end
  | None => Normal None
  end.

(** The [Answer] array gave no nameserver: it is missing, or holds no NS
    record. *)
Definition answerless (data : DnsJson) : Prop :=
  Answer data = None
  \/ exists records, Answer data = Some records /\ nsRecords records = Normal [].


(** Every entry the resumption stores in [dnsCache] holds the verdict
    [true]. *)
Fixpoint cachesOnlyBlocks {A} (p : async A) : Prop :=
  match p with
  | Ret _ => True
  | DateNow k => forall now, cachesOnlyBlocks (k now)
  | CacheGet _ k => forall e, cachesOnlyBlocks (k e)
  | CacheSet _ entry k => shouldBlock entry = true /\ cachesOnlyBlocks k
  | DecisionSet _ _ k => cachesOnlyBlocks k
  | AwaitFetch _ k => forall o, cachesOnlyBlocks (k o)
  end.

(** On every path the resumption stores a decision for [domain] and
    returns that decision at once. *)
Fixpoint settlesDecision (domain : string) (p : async BlockingResponse) : Prop :=
  match p with
  | Ret _ => False
  | DateNow k => forall now, settlesDecision domain (k now)
  | CacheGet _ k => forall e, settlesDecision domain (k e)
  | CacheSet _ _ k => settlesDecision domain k
  | DecisionSet key decision k =>
      key = domain /\ k = Ret {| cancel := decision |}
  | AwaitFetch _ k => forall o, settlesDecision domain (k o)
  end.

(** Cached verdicts are all [true], and every suspended evaluation will
    keep it so and will end by storing and returning its decision. *)
Definition EvaluationInv (L : Loop) : Prop :=
  (forall k e, dnsCache (ext L) !! k = Some e -> shouldBlock e = true)
  /\ Forall (fun t => forall o,
                 cachesOnlyBlocks (task_k t o)
                 /\ settlesDecision (task_domain t) (task_k t o))
       (pending L).

(** An environment given turn by turn: the clock readings and the way the
    fetch issued in each turn settles. *)
Definition turnByTurn (times : list Z) (outcomes : list FetchOutcome) : Env :=
  {| clock := fun n => nth n times 0;
     network := fun n _ => nth n outcomes FetchRejected |}.

(** ** Lemmas on the string primitives *)

Lemma split_not_nil s : Js.split s <> [].
Proof.
  destruct s as [|c rest]; simpl; [discriminate|].
  destruct (Ascii.eqb c Js.dot); [discriminate|].
  destruct (Js.split rest); discriminate.
Qed.

Lemma split_dotless s : Forall (fun p => Js.dotless p = true) (Js.split s).
Proof.
  induction s as [|c rest IH]; simpl.
  - repeat constructor.
  - destruct (Ascii.eqb c Js.dot) eqn:Hc.
    + constructor; [reflexivity | exact IH].
    + destruct (Js.split rest) as [|p ps]; [repeat constructor; simpl; now rewrite Hc|].
      inversion IH; subst. constructor; [|assumption].
      simpl. rewrite Hc. assumption.
Qed.

Lemma split_of_dotless p : Js.dotless p = true -> Js.split p = [p].
Proof.
  induction p as [|c rest IH]; simpl; [reflexivity|].
  intros [Hc Hr]%andb_prop. apply negb_true_iff in Hc. rewrite Hc.
  now rewrite (IH Hr).
Qed.

Lemma split_append_dot p s :
  Js.dotless p = true ->
  Js.split (String.append p (String Js.dot s)) = p :: Js.split s.
Proof.
  induction p as [|c rest IH]; simpl.
  - intros _. reflexivity.
  - intros [Hc Hr]%andb_prop. apply negb_true_iff in Hc. rewrite Hc.
    now rewrite (IH Hr).
Qed.

Lemma split_join parts :
  parts <> [] -> Forall (fun p => Js.dotless p = true) parts ->
  Js.split (Js.join parts) = parts.
Proof.
  induction parts as [|p ps IH]; [congruence|].
  intros _ Hall. inversion Hall as [|? ? Hp Hps]; subst.
  destruct ps as [|q qs].
  - simpl. now apply split_of_dotless.
  - change (Js.join (p :: q :: qs))
      with (String.append p (String Js.dot (Js.join (q :: qs)))).
    rewrite split_append_dot by assumption.
    f_equal. apply IH; [discriminate | assumption].
Qed.

Lemma slice_last_length {A} n (l : list A) :
  (n <= length l)%nat -> length (Js.slice_last n l) = n.
Proof. intros H. unfold Js.slice_last. rewrite length_drop. lia. Qed.

Lemma split_root_of_long domain :
  (2 < length (Js.split domain))%nat ->
  Js.split (getRootDomain domain) = Js.slice_last 2 (Js.split domain).
Proof.
  intros Hlen. unfold getRootDomain.
  destruct (Nat.leb_spec (length (Js.split domain)) 2) as [Hle|_]; [lia|].
  apply split_join.
  - intros Hnil. apply (f_equal length) in Hnil.
    rewrite slice_last_length in Hnil by lia. discriminate.
  - unfold Js.slice_last. apply Forall_drop, split_dotless.
Qed.

(** C9: [getRootDomain] is idempotent on every string. *)
Theorem getRootDomain_idempotent (x : string) :
  getRootDomain (getRootDomain x) = getRootDomain x.
Proof.
  destruct (Nat.leb_spec (length (Js.split x)) 2) as [Hle|Hgt].
  - unfold getRootDomain at 2.
    apply Nat.leb_le in Hle. rewrite Hle. unfold getRootDomain. now rewrite Hle.
  - unfold getRootDomain at 1.
    rewrite (split_root_of_long x Hgt), slice_last_length by lia.
    reflexivity.
Qed.

(** ** [s.endsWith(suffix)] *)

Lemma substring_all s : substring 0 (String.length s) s = s.
Proof. induction s as [|c s IH]; simpl; [reflexivity | now rewrite IH]. Qed.

Lemma substring_append_r p s :
  substring (String.length p) (String.length s) (String.append p s) = s.
Proof. induction p as [|c p IH]; simpl; [apply substring_all | exact IH]. Qed.

Lemma length_append p s :
  String.length (String.append p s) = (String.length p + String.length s)%nat.
Proof. induction p as [|c p IH]; simpl; [reflexivity | now rewrite IH]. Qed.

Lemma substring_split s : forall k, (k <= String.length s)%nat ->
  s = String.append (substring 0 k s) (substring k (String.length s - k) s).
Proof.
  induction s as [|c s IH]; intros [|k] Hk; simpl in *.
  - reflexivity.
  - lia.
  - now rewrite substring_all.
  - change (String c s = String c (String.append (substring 0 k s)
                                      (substring k (String.length s - k) s))).
    f_equal. apply IH. lia.
Qed.

Lemma endsWith_spec s suffix :
  Js.endsWith s suffix = true <-> exists p, s = String.append p suffix.
Proof.
  unfold Js.endsWith. split.
  - remember (String.length suffix) as m eqn:Hm.
    destruct (Nat.leb_spec m (String.length s)) as [Hle|]; [|discriminate].
    intros Heq%String.eqb_eq.
    exists (substring 0 (String.length s - m) s).
    rewrite <- Heq.
    rewrite (substring_split s (String.length s - m)) at 1 by lia.
    do 2 f_equal. lia.
  - intros [p ->]. rewrite length_append.
    destruct (Nat.leb_spec (String.length suffix)
                (String.length p + String.length suffix)) as [_|]; [|lia].
    replace (String.length p + String.length suffix - String.length suffix)%nat
      with (String.length p) by lia.
    rewrite substring_append_r. apply String.eqb_refl.
Qed.

(** ** One call of [shouldBlockDomain] on its own *)

Lemma run_shouldBlockDomain env domain n st :
  run env (shouldBlockDomain domain) n st =
  match cachedVerdict st domain (clock env n) with
  | Some b => {| value := b; final := st; turn := n; calls := [] |}
  | None => run env (shouldBlockDomain_uncached domain) n st
  end.
Proof.
  unfold shouldBlockDomain, cachedVerdict. cbn.
  destruct (dnsCache st !! domain) as [e|]; [|reflexivity].
  cbn. destruct (clock env n - timestamp e <? cacheTTL); reflexivity.
Qed.

Lemma run_uncached_root env domain n st :
  domain = getRootDomain domain ->
  run env (shouldBlockDomain_uncached domain) n st =
  {| value := false; final := st; turn := n; calls := [] |}.
Proof.
  intros H. unfold shouldBlockDomain_uncached. cbv zeta.
  rewrite <- H, String.eqb_refl. reflexivity.
Qed.

Ltac split_ifs :=
  repeat (match goal with
          | |- context [if ?b then _ else _] => destruct b
          end; cbn).

Lemma run_uncached_calls env domain n st :
  isSubdomain domain ->
  calls (run env (shouldBlockDomain_uncached domain) n st) =
    [ (dohUrl domain, network env n (dohUrl domain));
      (dohUrl (getRootDomain domain),
       network env (S n) (dohUrl (getRootDomain domain))) ].
Proof.
  intros H. apply String.eqb_neq in H.
  unfold shouldBlockDomain_uncached. cbv zeta. rewrite H. cbn.
  split_ifs; reflexivity.
Qed.

(** The verdict of an evaluation, as a function of the two lookups. *)
Lemma run_uncached_value env domain n st :
  isSubdomain domain ->
  let domainResult := lookupResult (network env n (dohUrl domain)) in
  let rootResult :=
    lookupResult (network env (S n) (dohUrl (getRootDomain domain))) in
  value (run env (shouldBlockDomain_uncached domain) n st) =
    if Nat.eqb (length (servers rootResult)) 0 then false
    else if foreignAuthority (authority domainResult) (getRootDomain domain) then true
    else if Nat.ltb 0 (length (servers domainResult))
    then negb (Js.some (fun ns => Js.includes (servers rootResult) ns)
                 (servers domainResult))
    else true.
Proof.
  intros H. apply String.eqb_neq in H.
  unfold shouldBlockDomain_uncached. cbv zeta. rewrite H. cbn.
  split_ifs; reflexivity.
Qed.

(** What [lookedUp] amounts to: no fresh cached verdict, a proper
    subdomain, and the two results are those of the two fetches. *)
Lemma lookedUp_inv env domain n st domainResult rootResult :
  lookedUp (run env (shouldBlockDomain domain) n st) domain domainResult rootResult ->
  cachedVerdict st domain (clock env n) = None
  /\ isSubdomain domain
  /\ domainResult = lookupResult (network env n (dohUrl domain))
  /\ rootResult = lookupResult (network env (S n) (dohUrl (getRootDomain domain))).
Proof.
  intros (o1 & o2 & Hcalls & -> & ->).
  rewrite run_shouldBlockDomain in Hcalls.
  destruct (cachedVerdict st domain (clock env n)); [discriminate|].
  destruct (String.eqb_spec domain (getRootDomain domain)) as [Heq|Hne].
  - rewrite (run_uncached_root _ _ _ _ Heq) in Hcalls. discriminate.
  - rewrite (run_uncached_calls _ _ _ _ Hne) in Hcalls.
    injection Hcalls as <- <-. auto.
Qed.

Lemma lookedUp_value env domain n st domainResult rootResult :
  lookedUp (run env (shouldBlockDomain domain) n st) domain domainResult rootResult ->
  value (run env (shouldBlockDomain domain) n st) =
    if Nat.eqb (length (servers rootResult)) 0 then false
    else if foreignAuthority (authority domainResult) (getRootDomain domain) then true
    else if Nat.ltb 0 (length (servers domainResult))
    then negb (Js.some (fun ns => Js.includes (servers rootResult) ns)
                 (servers domainResult))
    else true.
Proof.
  intros H. destruct (lookedUp_inv _ _ _ _ _ _ H) as (Hc & Hsub & -> & ->).
  rewrite run_shouldBlockDomain, Hc. now apply run_uncached_value.
Qed.

Lemma length_eqb_0 {A} (l : list A) : Nat.eqb (length l) 0 = true <-> l = [].
Proof.
  rewrite Nat.eqb_eq. destruct l; simpl; split; intros H; congruence || lia.
Qed.

Lemma length_ltb_0 {A} (l : list A) : Nat.ltb 0 (length l) = true <-> l <> [].
Proof.
  rewrite Nat.ltb_lt. destruct l; simpl; split; intros H; congruence || lia.
Qed.

Lemma some_includes (xs ys : list string) :
  Js.some (fun ns => Js.includes ys ns) xs = true
  <-> exists ns, ns ∈ xs /\ ns ∈ ys.
Proof.
  unfold Js.some, Js.includes. rewrite existsb_exists. split.
  - intros (ns & Hin & Hex). apply existsb_exists in Hex as (y & Hy & Heq).
    apply String.eqb_eq in Heq. subst y.
    exists ns. split; now apply list_elem_of_In.
  - intros (ns & Hx & Hy). exists ns. split; [now apply list_elem_of_In|].
    apply existsb_exists. exists ns. split; [now apply list_elem_of_In|].
    apply String.eqb_refl.
Qed.

Lemma foreignAuthority_spec a rootDomain :
  foreignAuthority a rootDomain = true
  <-> exists auth, a = Some auth /\ auth <> ""%string /\ auth <> rootDomain
        /\ ~ (exists p, auth = String.append p (String.append "." rootDomain)).
Proof.
  unfold foreignAuthority. split.
  - destruct a as [auth|]; [|discriminate].
    intros [[Ht Hne]%andb_prop Hends]%andb_prop.
    exists auth. repeat split.
    + intros ->. discriminate.
    + apply negb_true_iff, String.eqb_neq in Hne. exact Hne.
    + apply negb_true_iff in Hends. intros Hex%endsWith_spec. congruence.
  - intros (auth & -> & Hnonempty & Hne & Hends).
    apply andb_true_intro; split; [apply andb_true_intro; split|].
    + destruct auth; [congruence | reflexivity].
    + now apply negb_true_iff, String.eqb_neq.
    + apply negb_true_iff. destruct (Js.endsWith _ _) eqn:E; [|reflexivity].
      apply endsWith_spec in E. contradiction.
Qed.

(** ** The decision branches *)

(** C3: when both lookups return nameservers and the authority test of
    lines 115-117 does not fire, the verdict is [false] if some nameserver
    of the hostname is also one of its root, and [true] if none is. *)
Theorem nameserver_comparison_decides env domain n st domainResult rootResult :
  let r := run env (shouldBlockDomain domain) n st in
  lookedUp r domain domainResult rootResult ->
  servers domainResult <> [] ->
  servers rootResult <> [] ->
  foreignAuthority (authority domainResult) (getRootDomain domain) = false ->
  ((exists ns, ns ∈ servers domainResult /\ ns ∈ servers rootResult) ->
     value r = false)
  /\ ((forall ns, ns ∈ servers domainResult -> ns ∉ servers rootResult) ->
        value r = true).
Proof.
  intros r Hlook Hd Hr Hauth. subst r.
  rewrite (lookedUp_value _ _ _ _ _ _ Hlook), Hauth.
  apply length_ltb_0 in Hd. rewrite Hd.
  destruct (Nat.eqb (length (servers rootResult)) 0) eqn:E;
    [apply length_eqb_0 in E; contradiction|].
  split.
  - intros Hex%some_includes. now rewrite Hex.
  - intros Hdisj.
    destruct (Js.some _ _) eqn:Hsome; [|reflexivity].
    apply some_includes in Hsome as (ns & Hx & Hy).
    now destruct (Hdisj ns Hx).
Qed.

Lemma nameserver_comparison_witness :
  value (run demoEnv (shouldBlockDomain "sub.a.com") 0 initialExt) = false
  /\ value (run demoEnv (shouldBlockDomain "other.a.com") 0 initialExt) = true.
Proof.
  split.
  - apply (proj1 (nameserver_comparison_decides demoEnv "sub.a.com" 0 initialExt
             {| servers := ["ns1.reg.com"%string]; authority := None |}
             {| servers := ["ns1.reg.com"%string]; authority := None |}
             ltac:(eexists _, _; repeat split; reflexivity)
             ltac:(discriminate) ltac:(discriminate) ltac:(reflexivity))).
    exists "ns1.reg.com"%string. split; apply list_elem_of_here.
  - apply (proj2 (nameserver_comparison_decides demoEnv "other.a.com" 0 initialExt
             {| servers := ["ns9.other.net"%string]; authority := None |}
             {| servers := ["ns1.reg.com"%string]; authority := None |}
             ltac:(eexists _, _; repeat split; reflexivity)
             ltac:(discriminate) ltac:(discriminate) ltac:(reflexivity))).
    intros ns Hns%list_elem_of_singleton Hin%list_elem_of_singleton. subst ns.
    discriminate Hin.
Defined.

(** C4, as amended: when the root lookup returns nameservers and the
    hostname's authority is a non-empty string that is neither the root
    domain nor ends with a dot followed by the root domain, the verdict is
    [true], whatever the hostname's nameservers. *)
Theorem foreign_authority_blocks env domain n st domainResult rootResult auth :
  let r := run env (shouldBlockDomain domain) n st in
  lookedUp r domain domainResult rootResult ->
  servers rootResult <> [] ->
  authority domainResult = Some auth ->
  auth <> ""%string ->
  auth <> getRootDomain domain ->
  ~ (exists p, auth = String.append p (String.append "." (getRootDomain domain))) ->
  value r = true.
Proof.
  intros r Hlook Hr Hauth Hnonempty Hne Hends. subst r.
  rewrite (lookedUp_value _ _ _ _ _ _ Hlook).
  destruct (Nat.eqb (length (servers rootResult)) 0) eqn:E;
    [apply length_eqb_0 in E; contradiction|].
  assert (foreignAuthority (authority domainResult) (getRootDomain domain) = true)
    as ->; [|reflexivity].
  apply foreignAuthority_spec. exists auth. auto.
Qed.

Lemma endsWith_false s suffix :
  Js.endsWith s suffix = false -> ~ (exists p, s = String.append p suffix).
Proof. intros E Hex%endsWith_spec. congruence. Qed.

Lemma foreign_authority_blocks_witness :
  value (run demoEnv (shouldBlockDomain "evil.a.com") 0 initialExt) = true.
Proof.
  apply (foreign_authority_blocks demoEnv "evil.a.com" 0 initialExt
           {| servers := []; authority := Some "thirdparty.net"%string |}
           {| servers := ["ns1.reg.com"%string]; authority := None |}
           "thirdparty.net"%string
           ltac:(eexists _, _; repeat split; reflexivity)
           ltac:(discriminate) ltac:(reflexivity) ltac:(discriminate)
           ltac:(vm_compute; discriminate)
           (endsWith_false "thirdparty.net" ".a.com" ltac:(reflexivity))).
Defined.

(** C4 as stated fails when the authority is the empty string: it is
    present, differs from the root domain and does not end with
    [".a.com"], yet the verdict is [false]. *)
Lemma empty_authority_is_not_foreign :
  let r := run demoEnv (shouldBlockDomain "odd.a.com") 0 initialExt in
  let domainResult := {| servers := ["ns1.reg.com"%string]; authority := Some ""%string |} in
  let rootResult := {| servers := ["ns1.reg.com"%string]; authority := None |} in
  lookedUp r "odd.a.com" domainResult rootResult
  /\ servers rootResult <> []
  /\ authority domainResult = Some ""%string
  /\ ""%string <> getRootDomain "odd.a.com"
  /\ Js.endsWith "" (String.append "." (getRootDomain "odd.a.com")) = false
  /\ value r <> true.
Proof.
  cbv zeta. split; [eexists _, _; repeat split; reflexivity|].
  repeat split; try discriminate; reflexivity.
Qed.

(** C5: when the hostname's lookup returns no nameservers and no
    authority while the root's returns nameservers, the verdict is
    [true]. *)
Theorem no_subdomain_records_blocks env domain n st domainResult rootResult :
  let r := run env (shouldBlockDomain domain) n st in
  lookedUp r domain domainResult rootResult ->
  servers domainResult = [] ->
  authority domainResult = None ->
  servers rootResult <> [] ->
  value r = true.
Proof.
  intros r Hlook Hd Hauth Hr. subst r.
  rewrite (lookedUp_value _ _ _ _ _ _ Hlook), Hd, Hauth.
  destruct (Nat.eqb (length (servers rootResult)) 0) eqn:E;
    [apply length_eqb_0 in E; contradiction|].
  reflexivity.
Qed.

Lemma no_subdomain_records_blocks_witness :
  value (run demoEnv (shouldBlockDomain "x.a.com") 0 initialExt) = true.
Proof.
  apply (no_subdomain_records_blocks demoEnv "x.a.com" 0 initialExt
           emptyResult
           {| servers := ["ns1.reg.com"%string]; authority := None |}
           ltac:(eexists _, _; repeat split; reflexivity)
           ltac:(reflexivity) ltac:(reflexivity) ltac:(discriminate)).
Defined.

(** C6: when the root's lookup returns no nameservers the verdict is
    [false], whatever the hostname's own lookup returned. *)
Theorem missing_root_records_allows env domain n st domainResult rootResult :
  let r := run env (shouldBlockDomain domain) n st in
  lookedUp r domain domainResult rootResult ->
  servers rootResult = [] ->
  value r = false.
Proof.
  intros r Hlook Hr. subst r.
  rewrite (lookedUp_value _ _ _ _ _ _ Hlook), Hr. reflexivity.
Qed.

Lemma missing_root_records_allows_witness :
  value (run demoEnv (shouldBlockDomain "sub.b.com") 0 initialExt) = false.
Proof.
  apply (missing_root_records_allows demoEnv "sub.b.com" 0 initialExt
           {| servers := ["ns1.reg.com"%string]; authority := None |}
           emptyResult
           ltac:(eexists _, _; repeat split; reflexivity)
           ltac:(reflexivity)).
Defined.

(** ** The cache of [shouldBlockDomain] *)

Lemma run_getDnsServers env name n st :
  run env (getDnsServers name) n st =
  {| value := lookupResult (network env n (dohUrl name));
     final := st; turn := S n;
     calls := [ (dohUrl name, network env n (dohUrl name)) ] |}.
Proof. reflexivity. Qed.

Lemma cachedVerdict_fresh st domain now entry :
  dnsCache st !! domain = Some entry ->
  now - timestamp entry < cacheTTL ->
  cachedVerdict st domain now = Some (shouldBlock entry).
Proof.
  intros H Hlt. unfold cachedVerdict. rewrite H.
  destruct (Z.ltb_spec (now - timestamp entry) cacheTTL); [reflexivity | lia].
Qed.

Lemma cachedVerdict_stale st domain now :
  (forall entry, dnsCache st !! domain = Some entry ->
                 cacheTTL <= now - timestamp entry) ->
  cachedVerdict st domain now = None.
Proof.
  intros H. unfold cachedVerdict.
  destruct (dnsCache st !! domain) as [entry|]; [|reflexivity].
  specialize (H entry eq_refl).
  destruct (Z.ltb_spec (now - timestamp entry) cacheTTL); [lia | reflexivity].
Qed.

(** C1, as amended: [dnsCache] holds verdicts keyed by hostname.  A call
    that finds an entry for its hostname younger than five minutes
    returns the stored verdict, makes no network call and changes nothing;
    a call that finds no entry, or one of five minutes or more, makes for
    a proper subdomain exactly two network calls, one for the hostname and
    one for its root; and every [getDnsServers] call makes one network
    call. *)
Theorem cached_verdict_within_ttl env domain n st :
  let r := run env (shouldBlockDomain domain) n st in
  (forall entry,
      dnsCache st !! domain = Some entry ->
      clock env n - timestamp entry < cacheTTL ->
      value r = shouldBlock entry /\ calls r = [] /\ final r = st)
  /\ ((forall entry, dnsCache st !! domain = Some entry ->
                     cacheTTL <= clock env n - timestamp entry) ->
      isSubdomain domain ->
      map fst (calls r) = [dohUrl domain; dohUrl (getRootDomain domain)])
  /\ (forall name m s,
        map fst (calls (run env (getDnsServers name) m s)) = [dohUrl name]).
Proof.
  intros r. subst r. rewrite run_shouldBlockDomain. split; [|split].
  - intros entry Hentry Hfresh.
    rewrite (cachedVerdict_fresh _ _ _ _ Hentry Hfresh). auto.
  - intros Hstale Hsub. rewrite (cachedVerdict_stale _ _ _ Hstale).
    now rewrite (run_uncached_calls _ _ _ _ Hsub).
  - reflexivity.
Qed.

(** The state after an evaluation of ["x.a.com"] in turns 0 to 2: the
    verdict [true] is cached with the time of turn 2. *)
Lemma cached_verdict_within_ttl_witness :
  let st := final (run demoEnv (shouldBlockDomain "x.a.com") 0 initialExt) in
  let r := run demoEnv (shouldBlockDomain "x.a.com") 3 st in
  let late := run demoEnv (shouldBlockDomain "x.a.com") 400 st in
  (value r = true /\ calls r = [] /\ final r = st)
  /\ map fst (calls late) = [dohUrl "x.a.com"; dohUrl "a.com"].
Proof.
  cbv zeta. split.
  - apply (proj1 (cached_verdict_within_ttl demoEnv "x.a.com" 3
             (final (run demoEnv (shouldBlockDomain "x.a.com") 0 initialExt)))
             {| shouldBlock := true; timestamp := 2000 |});
      [reflexivity | vm_compute; reflexivity].
  - apply (proj1 (proj2 (cached_verdict_within_ttl demoEnv "x.a.com" 400
             (final (run demoEnv (shouldBlockDomain "x.a.com") 0 initialExt))))).
    + intros entry H. vm_compute in H. injection H as <-. vm_compute. discriminate.
    + vm_compute. discriminate.
Defined.

(** C1 as stated fails: there is no cache of lookup results.  Two
    evaluations within five minutes, of two hostnames under ["a.com"],
    each store their verdict in [dnsCache] and each make a network call
    for ["a.com"]. *)
Lemma root_is_fetched_again_within_ttl :
  let r1 := run demoEnv (shouldBlockDomain "x.a.com") 0 initialExt in
  let r2 := run demoEnv (shouldBlockDomain "y.a.com") (turn r1) (final r1) in
  (forall n, (n <= turn r2)%nat -> 0 <= clock demoEnv n < cacheTTL)
  /\ callsFor "a.com" (calls r1) = 1%nat
  /\ callsFor "a.com" (calls r2) = 1%nat
  /\ callsFor "a.com" (calls r1 ++ calls r2) <> 1%nat.
Proof.
  cbv zeta. split; [|repeat split; vm_compute; congruence].
  change (turn (run demoEnv (shouldBlockDomain "y.a.com")
                  (turn (run demoEnv (shouldBlockDomain "x.a.com") 0 initialExt))
                  (final (run demoEnv (shouldBlockDomain "x.a.com") 0 initialExt))))
    with 4%nat.
  intros n Hn. unfold demoEnv, scripted, clock, cacheTTL. lia.
Qed.

(** The same happens for the hostname itself whenever the evaluation ends
    on a path that does not store its verdict. *)
Example subdomain_is_fetched_again_within_ttl :
  let r1 := run demoEnv (shouldBlockDomain "sub.a.com") 0 initialExt in
  let r2 := run demoEnv (shouldBlockDomain "sub.a.com") (turn r1) (final r1) in
  final r1 = initialExt /\ callsFor "sub.a.com" (calls r1 ++ calls r2) = 2%nat.
Proof. split; reflexivity. Qed.

(** ** [getDnsServers] never throws *)

Lemma response_ok_spec status :
  response_ok status = true <-> 200 <= status <= 299.
Proof. unfold response_ok. rewrite andb_true_iff, !Z.leb_le. reflexivity. Qed.

(** C8: a [getDnsServers] call always resolves to a result and leaves the
    state alone; whenever its [try] block throws the result is the empty
    one; and this is the case when the fetch is rejected, when the HTTP
    status is not in 200-299, and also (by line 24) when the body's
    [Status] is not zero. *)
Theorem getDnsServers_recovers env name n st :
  let o := network env n (dohUrl name) in
  let r := run env (getDnsServers name) n st in
  value r = getDnsServers_catch (getDnsServers_try o)
  /\ final r = st
  /\ (forall e, getDnsServers_try o = Throw e -> value r = emptyResult)
  /\ (o = FetchRejected -> value r = emptyResult)
  /\ (forall status body,
        o = FetchResponse status body -> ~ (200 <= status <= 299) ->
        value r = emptyResult)
  /\ (forall status data,
        o = FetchResponse status (Some data) -> Status data <> 0 ->
        value r = emptyResult).
Proof.
  cbv zeta. rewrite run_getDnsServers. cbn [value final].
  unfold lookupResult. repeat split.
  - intros e ->. reflexivity.
  - intros ->. reflexivity.
  - intros status body -> Hstatus. cbn.
    destruct (response_ok status) eqn:E; [|reflexivity].
    apply response_ok_spec in E. contradiction.
  - intros status data -> Hdns. cbn.
    destruct (response_ok status); [|reflexivity]. cbn.
    destruct (Z.eqb_spec (Status data) 0); [contradiction | reflexivity].
Qed.

Lemma getDnsServers_recovers_witness :
  value (run demoEnv (getDnsServers "b.com") 0 initialExt) = emptyResult
  /\ value (run (scripted [("c.com"%string, FetchResponse 503 None)])
              (getDnsServers "c.com") 0 initialExt) = emptyResult
  /\ value (run (scripted [("d.com"%string,
                            FetchResponse 200
                              (Some {| Status := 3;
                                       Answer := Some [nsRecord "d.com" "ns.d.com"];
                                       Authority := None |}))])
              (getDnsServers "d.com") 0 initialExt) = emptyResult.
Proof.
  split; [|split].
  - apply (proj1 (proj2 (proj2 (proj2
             (getDnsServers_recovers demoEnv "b.com" 0 initialExt))))).
    reflexivity.
  - apply (proj1 (proj2 (proj2 (proj2 (proj2
             (getDnsServers_recovers (scripted [("c.com"%string, FetchResponse 503 None)])
                "c.com" 0 initialExt))))) 503 None);
      [reflexivity | lia].
  - eapply (proj2 (proj2 (proj2 (proj2 (proj2
             (getDnsServers_recovers _ "d.com" 0 initialExt))))));
      [reflexivity | simpl; lia].
Defined.

(** ** Root domains *)

Lemma getRootDomain_short domain :
  (length (Js.split domain) <= 2)%nat -> getRootDomain domain = domain.
Proof.
  intros H. unfold getRootDomain. apply Nat.leb_le in H. now rewrite H.
Qed.

(** A hostname is its own root exactly when it has at most two labels. *)
Lemma own_root_iff_two_labels domain :
  getRootDomain domain = domain <-> (length (Js.split domain) <= 2)%nat.
Proof.
  split; [|apply getRootDomain_short].
  intros Heq. destruct (Nat.leb_spec (length (Js.split domain)) 2) as [|Hgt];
    [assumption|].
  pose proof (split_root_of_long domain Hgt) as Hsplit.
  rewrite Heq in Hsplit. apply (f_equal length) in Hsplit.
  rewrite slice_last_length in Hsplit by lia. lia.
Qed.

(** ** What the event loop preserves *)

Lemma storesUnder_bind {A B} P (m : async A) (f : A -> async B) :
  storesUnder P m -> (forall a, storesUnder P (f a)) ->
  storesUnder P (bind m f).
Proof.
  intros Hm Hf. induction m as [a|k IH|key k IH|key entry k IH|key b k IH|url k IH];
    simpl in *; try tauto; auto.
Qed.

Lemma storesUnder_uncached domain :
  storesUnder isSubdomain (shouldBlockDomain_uncached domain).
Proof.
  unfold shouldBlockDomain_uncached. cbv zeta.
  destruct (String.eqb_spec domain (getRootDomain domain)) as [|Hne]; [exact I|].
  cbn. intros o1 o2. split_ifs; cbn; auto.
Qed.

Lemma storesUnder_shouldBlockDomain domain :
  storesUnder isSubdomain (shouldBlockDomain domain).
Proof.
  unfold shouldBlockDomain. cbn. intros [entry|].
  - cbn. intros now. split_ifs; [exact I | apply storesUnder_uncached].
  - apply storesUnder_uncached.
Qed.

Lemma storesUnder_decisionPromise domain :
  isSubdomain domain -> storesUnder isSubdomain (decisionPromise domain).
Proof.
  intros Hsub. unfold decisionPromise.
  apply storesUnder_bind; [apply storesUnder_shouldBlockDomain|].
  intros b. cbn. auto.
Qed.

Lemma keyedBySubdomains_cache st key entry :
  keyedBySubdomains st -> isSubdomain key ->
  keyedBySubdomains (set_dnsCache st (<[key := entry]> (dnsCache st))).
Proof.
  intros [Hc Hd] Hkey. split; [|exact Hd].
  intros k e. simpl. rewrite lookup_insert. case_decide; [now subst | apply Hc].
Qed.

Lemma keyedBySubdomains_decision st key b :
  keyedBySubdomains st -> isSubdomain key ->
  keyedBySubdomains
    (set_blockingDecisions st (<[key := b]> (blockingDecisions st))).
Proof.
  intros [Hc Hd] Hkey. split; [exact Hc|].
  intros k e. simpl. rewrite lookup_insert. case_decide; [now subst | apply Hd].
Qed.

Lemma exec_keeps_keys now p : forall st,
  keyedBySubdomains st -> storesUnder isSubdomain p ->
  keyedBySubdomains (fst (exec now p st))
  /\ match snd (exec now p st) with
     | Done _ => True
     | Awaiting _ k => forall o, storesUnder isSubdomain (k o)
     end.
Proof.
  induction p as [a|k IH|key k IH|key entry k IH|key b k IH|url k IH];
    intros st Hst Hp; simpl in *.
  - auto.
  - apply IH; auto.
  - apply IH; auto.
  - destruct Hp. apply IH; [now apply keyedBySubdomains_cache | assumption].
  - destruct Hp. apply IH; [now apply keyedBySubdomains_decision | assumption].
  - auto.
Qed.

(** [run] is [exec] turn after turn, each fetch settling as the
    environment says. *)
Lemma run_exec env p : forall n st,
  run env p n st =
  match exec (clock env n) p st with
  | (st', Done r) => {| value := r; final := st'; turn := n; calls := [] |}
  | (st', Awaiting url k) =>
      let o := network env n url in
      let r := run env (k o) (S n) st' in
      {| value := value r; final := final r; turn := turn r;
         calls := (url, o) :: calls r |}
  end.
Proof.
  induction p as [a|k IH|key k IH|key entry k IH|key b k IH|url k IH];
    intros n st; simpl; auto.
Qed.

Section LoopProperties.

Variable URL_hostname : string -> option string.

Local Abbreviation onBeforeRequest := (onBeforeRequest URL_hostname).
Local Abbreviation extractDomain := (extractDomain URL_hostname).
Local Abbreviation loop_step := (loop_step URL_hostname).
Local Abbreviation loop_run := (loop_run URL_hostname).
Local Abbreviation Reachable := (Reachable URL_hostname).

(** What the listener has checked when it starts an evaluation. *)
Lemma onBeforeRequest_promise st url domain :
  onBeforeRequest st url = PromiseFor domain ->
  extractDomain url = Some domain
  /\ domain <> ""%string
  /\ domain <> "dns.google"%string
  /\ getRootDomain domain ∈ activeRootDomains st
  /\ isSubdomain domain
  /\ blockingDecisions st !! domain = None.
Proof.
  unfold onBeforeRequest.
  destruct (extractDomain url) as [d|]; [|discriminate].
  destruct d as [|c d']; [discriminate|]. cbn [Js.truthy negb].
  destruct (String.eqb_spec (String c d') "dns.google"); [discriminate|].
  cbv zeta. case_bool_decide; [|discriminate]. cbn [negb].
  destruct (String.eqb_spec (String c d') (getRootDomain (String c d')));
    [discriminate|].
  destruct (blockingDecisions st !! String c d') eqn:E; [discriminate|].
  intros [= <-]. repeat split; auto; discriminate.
Qed.

Lemma onBeforeRequest_starts st url domain :
  extractDomain url = Some domain ->
  domain <> ""%string ->
  domain <> "dns.google"%string ->
  getRootDomain domain ∈ activeRootDomains st ->
  isSubdomain domain ->
  blockingDecisions st !! domain = None ->
  onBeforeRequest st url = PromiseFor domain.
Proof.
  intros Hurl Hne Hdns Hactive Hsub Hnone. unfold onBeforeRequest.
  rewrite Hurl. destruct domain as [|c d']; [congruence|]. cbn [Js.truthy negb].
  destruct (String.eqb_spec (String c d') "dns.google"); [contradiction|].
  cbv zeta. rewrite bool_decide_eq_true_2 by assumption. cbn [negb].
  destruct (String.eqb_spec (String c d') (getRootDomain (String c d')));
    [contradiction|].
  now rewrite Hnone.
Qed.

Lemma advance_keeps_inv L others domain now p :
  keyedBySubdomains (ext L) ->
  Forall (fun t => forall o, storesUnder isSubdomain (task_k t o)) others ->
  storesUnder isSubdomain p ->
  LoopInv (advance L others domain now p).
Proof.
  intros Hst Hothers Hp. unfold advance.
  destruct (exec_keeps_keys now p (ext L) Hst Hp) as [Hkeys Hk].
  destruct (exec now p (ext L)) as [st [r|url k]]; simpl in *.
  - split; assumption.
  - split; [assumption|]. apply Forall_app. split; [assumption|].
    constructor; [exact Hk | constructor].
Qed.

Lemma loop_step_keeps_inv L ev : LoopInv L -> LoopInv (loop_step L ev).
Proof.
  intros [Hst Hpending]. destruct ev as [url now|i o now|u|tabs|tabs]; simpl.
  - destruct (onBeforeRequest (ext L) url) as [r|domain] eqn:E.
    + split; assumption.
    + apply onBeforeRequest_promise in E as (_ & _ & _ & _ & Hsub & _).
      apply advance_keeps_inv;
        [exact Hst | exact Hpending | now apply storesUnder_decisionPromise].
  - destruct (pending L !! i) as [t|] eqn:E; [|split; assumption].
    apply advance_keeps_inv; [assumption| |].
    + now apply Forall_delete.
    + exact (Forall_lookup_1 _ _ _ _ Hpending E o).
  - split; assumption.
  - split; assumption.
  - split; assumption.
Qed.

Lemma LoopInv_initial : LoopInv initialLoop.
Proof.
  split; [split|constructor]; intros k e; simpl; rewrite lookup_empty;
    discriminate.
Qed.

Lemma Reachable_inv L : Reachable L -> LoopInv L.
Proof.
  induction 1; [apply LoopInv_initial | now apply loop_step_keeps_inv].
Qed.

Lemma Reachable_run L evs : Reachable L -> Reachable (loop_run L evs).
Proof.
  revert L. induction evs as [|ev evs IH]; intros L HL; simpl; [assumption|].
  apply IH. now constructor.
Qed.

(** C7: in every state the extension can reach, evaluating a hostname
    that is its own root gives [false], makes no network call, takes no
    turn and changes nothing. *)
Theorem root_domain_is_allowed L env h n :
  Reachable L ->
  getRootDomain h = h ->
  run env (shouldBlockDomain h) n (ext L) =
    {| value := false; final := ext L; turn := n; calls := [] |}.
Proof.
  intros HL Hroot. rewrite run_shouldBlockDomain.
  assert (cachedVerdict (ext L) h (clock env n) = None) as ->.
  { unfold cachedVerdict. destruct (dnsCache (ext L) !! h) as [e|] eqn:E;
      [|reflexivity].
    destruct (Reachable_inv L HL) as [[Hc _] _].
    destruct (Hc h e E). now symmetry. }
  now apply run_uncached_root.
Qed.

(** ** Requests that arrive while an evaluation is in flight *)

Lemma exec_decisionPromise_miss now domain st :
  dnsCache st !! domain = None ->
  isSubdomain domain ->
  exists k, exec now (decisionPromise domain) st = (st, Awaiting (dohUrl domain) k).
Proof.
  intros Hnone Hsub. apply String.eqb_neq in Hsub.
  unfold decisionPromise, shouldBlockDomain. cbn. rewrite Hnone.
  unfold shouldBlockDomain_uncached. cbv zeta. rewrite Hsub. cbn.
  eexists. reflexivity.
Qed.

Lemma occurrences_snoc x y h :
  occurrences x (h ++ [y]) =
  (occurrences x h + if String.eqb x y then 1 else 0)%nat.
Proof.
  unfold occurrences. rewrite List.filter_app, length_app. simpl.
  destruct (String.eqb x y); reflexivity.
Qed.

Lemma request_starts_evaluation L url h now :
  extractDomain url = Some h ->
  h <> ""%string ->
  h <> "dns.google"%string ->
  getRootDomain h ∈ activeRootDomains (ext L) ->
  isSubdomain h ->
  blockingDecisions (ext L) !! h = None ->
  dnsCache (ext L) !! h = None ->
  exists k,
    loop_step L (WebRequest url now) =
    {| ext := ext L;
       pending := pending L ++
                  [{| task_domain := h; task_url := dohUrl h; task_k := k |}];
       evaluations := evaluations L ++ [h];
       fetches := fetches L ++ [dohUrl h];
       responses := responses L |}.
Proof.
  intros Hurl Hne Hdns Hactive Hsub Hdec Hcache.
  destruct (exec_decisionPromise_miss now h (ext L) Hcache Hsub) as [k Hk].
  exists k. unfold loop_step.
  rewrite (onBeforeRequest_starts _ _ _ Hurl Hne Hdns Hactive Hsub Hdec).
  unfold advance. cbn [ext pending evaluations fetches responses].
  rewrite Hk. reflexivity.
Qed.

(** C2, as amended: for a hostname that passes the listener's checks
    and has neither a stored decision nor a [dnsCache] entry, [N]
    requests arriving before any lookup settles start [N] evaluations,
    all in flight together, each with its own network call for the
    hostname; none of them is answered yet and the state is unchanged.
    A request arriving when a decision is stored is answered with it
    and starts nothing. *)
Theorem concurrent_requests_each_evaluate L url h (times : list Z) :
  extractDomain url = Some h ->
  h <> ""%string ->
  h <> "dns.google"%string ->
  getRootDomain h ∈ activeRootDomains (ext L) ->
  isSubdomain h ->
  blockingDecisions (ext L) !! h = None ->
  dnsCache (ext L) !! h = None ->
  let L' := loop_run L (map (WebRequest url) times) in
  (occurrences h (evaluations L')
     = occurrences h (evaluations L) + length times)%nat
  /\ (inFlight h L' = inFlight h L + length times)%nat
  /\ (occurrences (dohUrl h) (fetches L')
        = occurrences (dohUrl h) (fetches L) + length times)%nat
  /\ ext L' = ext L
  /\ responses L' = responses L
  /\ (forall L2 decision now,
        blockingDecisions (ext L2) !! h = Some decision ->
        getRootDomain h ∈ activeRootDomains (ext L2) ->
        loop_step L2 (WebRequest url now) =
        {| ext := ext L2; pending := pending L2;
           evaluations := evaluations L2; fetches := fetches L2;
           responses := responses L2 ++ [(h, {| cancel := decision |})] |}).
Proof.
  intros Hurl Hne Hdns Hactive Hsub Hdec Hcache L'. subst L'.
  repeat match goal with |- _ /\ _ => split end.
  6: { intros L2 decision now Hstored Hact. simpl. unfold onBeforeRequest.
       rewrite Hurl. destruct h as [|c h']; [congruence|]. cbn [Js.truthy negb].
       destruct (String.eqb_spec (String c h') "dns.google"); [contradiction|].
       cbv zeta. rewrite bool_decide_eq_true_2 by assumption. cbn [negb].
       destruct (String.eqb_spec (String c h') (getRootDomain (String c h')));
         [contradiction|].
       rewrite Hstored. reflexivity. }
  all: revert L Hactive Hdec Hcache;
    induction times as [|t times IH]; intros L Hactive Hdec Hcache; simpl;
    [ rewrite ?Nat.add_0_r; reflexivity | ];
    destruct (request_starts_evaluation L url h t
                Hurl Hne Hdns Hactive Hsub Hdec Hcache) as [k Hstep];
    simpl in Hstep; rewrite Hstep;
    rewrite IH by assumption; simpl; try reflexivity.
  - rewrite occurrences_snoc, String.eqb_refl. lia.
  - unfold inFlight. simpl. rewrite List.filter_app, length_app. simpl.
    rewrite String.eqb_refl. simpl. lia.
  - rewrite occurrences_snoc, String.eqb_refl. lia.
Qed.

(** ** The DNS-over-HTTPS host *)

(** C10: a request whose hostname is ["dns.google"] is answered at
    once with [cancel: false], in any state; no evaluation starts, no
    network call is made and nothing is stored. *)
Theorem dns_google_is_exempt L url now :
  extractDomain url = Some "dns.google"%string ->
  onBeforeRequest (ext L) url = Value {| cancel := false |}
  /\ loop_step L (WebRequest url now) =
     {| ext := ext L; pending := pending L;
        evaluations := evaluations L; fetches := fetches L;
        responses := responses L ++ [("dns.google"%string, {| cancel := false |})] |}.
Proof.
  intros Hurl.
  assert (onBeforeRequest (ext L) url = Value {| cancel := false |}) as H.
  { unfold onBeforeRequest. rewrite Hurl. reflexivity. }
  split; [exact H|]. simpl. rewrite H, Hurl. reflexivity.
Qed.

(** The headers-phase listener does not cancel it either: no decision
    is ever stored for a hostname that is its own root. *)
Lemma dns_google_passes_headers_phase L url :
  Reachable L ->
  extractDomain url = Some "dns.google"%string ->
  onBeforeSendHeaders URL_hostname (ext L) url = None.
Proof.
  intros HL Hurl. unfold onBeforeSendHeaders. rewrite Hurl. cbn [Js.truthy negb].
  destruct (blockingDecisions (ext L) !! "dns.google"%string) as [b|] eqn:E;
    [|reflexivity].
  destruct (Reachable_inv L HL) as [[_ Hd] _].
  destruct (Hd _ _ E). reflexivity.
Qed.

End LoopProperties.

(** ** Closed runs of the event loop *)

Example demoLoop_state :
  dnsCache (ext demoLoop) !! "x.a.com"%string
    = Some {| shouldBlock := true; timestamp := 2000 |}
  /\ blockingDecisions (ext demoLoop) !! "x.a.com"%string = Some true
  /\ responses demoLoop = [("x.a.com"%string, {| cancel := true |})]
  /\ pending demoLoop = [].
Proof. repeat split; reflexivity. Qed.

Lemma root_domain_is_allowed_witness :
  run demoEnv (shouldBlockDomain "a.com") 5 (ext demoLoop) =
    {| value := false; final := ext demoLoop; turn := 5; calls := [] |}.
Proof.
  apply (root_domain_is_allowed simpleHostname demoLoop demoEnv "a.com" 5).
  - unfold demoLoop, tabsOpen. do 2 apply Reachable_run. constructor.
  - reflexivity.
Defined.

Lemma concurrent_requests_each_evaluate_witness :
  let L := loop_run simpleHostname tabsOpen
             (map (WebRequest "https://x.a.com/pixel.gif") [0; 1; 2]) in
  occurrences "x.a.com" (evaluations L) = 3%nat
  /\ inFlight "x.a.com" L = 3%nat
  /\ occurrences (dohUrl "x.a.com") (fetches L) = 3%nat
  /\ ext L = ext tabsOpen
  /\ responses L = [].
Proof.
  pose proof (concurrent_requests_each_evaluate simpleHostname tabsOpen
                "https://x.a.com/pixel.gif" "x.a.com" [0; 1; 2]
                ltac:(reflexivity) ltac:(discriminate) ltac:(discriminate)
                ltac:(refine (bool_decide_unpack _ _); vm_compute; exact I)
                ltac:(vm_compute; discriminate)
                ltac:(reflexivity) ltac:(reflexivity)) as H.
  cbv zeta in H. destruct H as (H1 & H2 & H3 & H4 & H5 & _).
  cbv zeta. repeat match goal with |- _ /\ _ => split end.
  - exact H1.
  - exact H2.
  - exact H3.
  - exact H4.
  - exact H5.
Defined.

(** C2 as stated fails: two requests for the same new hostname start two
    evaluations, both in flight, and the two callers can receive
    different verdicts. *)
Lemma two_requests_two_evaluations :
  blockingDecisions (ext tabsOpen) !! "x.a.com"%string = None
  /\ dnsCache (ext tabsOpen) !! "x.a.com"%string = None
  /\ occurrences "x.a.com" (evaluations twoRequests) = 2%nat
  /\ inFlight "x.a.com" twoRequests = 2%nat
  /\ responses twoRequestsSettled =
       [ ("x.a.com"%string, {| cancel := true |});
         ("x.a.com"%string, {| cancel := false |}) ].
Proof. repeat split; reflexivity. Qed.

Lemma dns_google_is_exempt_witness :
  let url := "https://dns.google/resolve?name=x.a.com&type=NS"%string in
  "dns.google"%string ∈ activeRootDomains (ext demoLoop)
  /\ onBeforeRequest simpleHostname (ext demoLoop) url = Value {| cancel := false |}
  /\ loop_step simpleHostname demoLoop (WebRequest url 7) =
     {| ext := ext demoLoop; pending := pending demoLoop;
        evaluations := evaluations demoLoop; fetches := fetches demoLoop;
        responses := responses demoLoop
                       ++ [("dns.google"%string, {| cancel := false |})] |}.
Proof.
  cbv zeta. split; [refine (bool_decide_unpack _ _); vm_compute; exact I|].
  apply (dns_google_is_exempt simpleHostname demoLoop
           "https://dns.google/resolve?name=x.a.com&type=NS" 7).
  reflexivity.
Defined.

(** The end-to-end scenarios of the specification. *)
Example scenario_shared_nameserver :
  value (run demoEnv (shouldBlockDomain "sub.a.com") 0 initialExt) = false.
Proof. reflexivity. Qed.

Example scenario_foreign_authority :
  value (run demoEnv (shouldBlockDomain "evil.a.com") 0 initialExt) = true.
Proof. reflexivity. Qed.

Example scenario_no_records :
  value (run demoEnv (shouldBlockDomain "x.a.com") 0 initialExt) = true.
Proof. reflexivity. Qed.

Example scenario_root_lookup_fails :
  value (run demoEnv (shouldBlockDomain "sub.b.com") 0 initialExt) = false.
Proof. reflexivity. Qed.

Example scenario_invalid_url :
  onBeforeRequest simpleHostname (ext demoLoop) "not a url" = Value {| cancel := false |}.
Proof. reflexivity. Qed.

(** ** More on root domains *)

Lemma join_cons_nonempty p q qs :
  Js.join (p :: q :: qs) = String.append p (String Js.dot (Js.join (q :: qs))).
Proof. reflexivity. Qed.

Lemma append_String c p s :
  String.append (String c p) s = String c (String.append p s).
Proof. reflexivity. Qed.

Lemma join_split s : Js.join (Js.split s) = s.
Proof.
  induction s as [|c rest IH]; [reflexivity|].
  simpl Js.split. destruct (Ascii.eqb_spec c Js.dot) as [->|Hc].
  - destruct (Js.split rest) as [|p ps] eqn:E; [now destruct (split_not_nil rest)|].
    rewrite join_cons_nonempty, IH. reflexivity.
  - destruct (Js.split rest) as [|p ps] eqn:E; [now destruct (split_not_nil rest)|].
    destruct ps as [|q qs].
    + simpl in IH |- *. now rewrite IH.
    + rewrite join_cons_nonempty in IH |- *. rewrite append_String. now rewrite IH.
Qed.

Lemma append_assoc (a b c : string) :
  String.append (String.append a b) c = String.append a (String.append b c).
Proof. induction a as [|x a IH]; [reflexivity|]. rewrite !append_String. now rewrite IH. Qed.

Lemma join_app (a b : list string) :
  a <> [] -> b <> [] ->
  Js.join (a ++ b) = String.append (Js.join a) (String Js.dot (Js.join b)).
Proof.
  induction a as [|p ps IH]; [congruence|]. intros _ Hb.
  destruct ps as [|q qs].
  - destruct b as [|y ys]; [congruence|]. reflexivity.
  - change ((p :: q :: qs) ++ b) with (p :: q :: (qs ++ b)).
    rewrite !join_cons_nonempty.
    change (q :: qs ++ b) with ((q :: qs) ++ b). rewrite IH by (discriminate || assumption).
    rewrite append_assoc. reflexivity.
Qed.

(** X1: a hostname is its own root domain exactly when it has at most two
    dot-separated labels. *)
Theorem own_root_exactly_when_short domain :
  getRootDomain domain = domain <-> (length (Js.split domain) <= 2)%nat.
Proof.
  split; [|apply getRootDomain_short].
  intros Heq. destruct (Nat.leb_spec (length (Js.split domain)) 2) as [|Hgt];
    [assumption|].
  pose proof (split_root_of_long domain Hgt) as Hsplit.
  rewrite Heq in Hsplit. apply (f_equal length) in Hsplit.
  rewrite slice_last_length in Hsplit by lia. lia.
Qed.

Lemma root_suffix domain :
  getRootDomain domain = domain
  \/ exists p, domain = String.append p (String.append "." (getRootDomain domain)).
Proof.
  destruct (Nat.leb_spec (length (Js.split domain)) 2) as [Hle|Hgt].
  - left. now apply getRootDomain_short.
  - right. exists (Js.join (take (length (Js.split domain) - 2) (Js.split domain))).
    unfold getRootDomain. apply Nat.leb_gt in Hgt as Hgt'. rewrite Hgt'.
    unfold Js.slice_last.
    change (String.append "." ?s) with (String Js.dot s).
    rewrite <- join_app.
    + now rewrite take_drop, join_split.
    + intros H. apply (f_equal length) in H. rewrite length_take in H.
      simpl in H. lia.
    + intros H. apply (f_equal length) in H. rewrite length_drop in H.
      simpl in H. lia.
Qed.

(** X2: the root domain of a hostname is the hostname itself or what
    follows one of its dots, and it has at most two labels. *)
Theorem root_domain_is_a_short_suffix domain :
  (getRootDomain domain = domain
   \/ exists p, domain = String.append p (String.append "." (getRootDomain domain)))
  /\ (length (Js.split (getRootDomain domain)) <= 2)%nat.
Proof.
  split; [apply root_suffix|].
  destruct (Nat.leb_spec (length (Js.split domain)) 2) as [Hle|Hgt].
  - now rewrite getRootDomain_short.
  - rewrite (split_root_of_long domain Hgt), slice_last_length; lia.
Qed.

Lemma root_of_root domain : getRootDomain (getRootDomain domain) = getRootDomain domain.
Proof.
  apply getRootDomain_short.
  destruct (Nat.leb_spec (length (Js.split domain)) 2) as [Hle|Hgt].
  - now rewrite getRootDomain_short.
  - rewrite (split_root_of_long domain Hgt), slice_last_length; lia.
Qed.

(** X3: an authority equal to the hostname itself, or to its root, never
    counts as a foreign zone in the test of lines 115-117. *)
Theorem own_zone_is_not_foreign domain :
  foreignAuthority (Some domain) (getRootDomain domain) = false
  /\ foreignAuthority (Some (getRootDomain domain)) (getRootDomain domain) = false.
Proof.
  split.
  - destruct (foreignAuthority _ _) eqn:E; [|reflexivity].
    apply foreignAuthority_spec in E as (auth & [= <-] & _ & Hne & Hsuffix).
    destruct (root_suffix domain) as [Heq|Hex]; [congruence|].
    contradiction.
  - destruct (foreignAuthority _ _) eqn:E; [|reflexivity].
    apply foreignAuthority_spec in E as (auth & [= <-] & _ & Hne & _).
    congruence.
Qed.

(** ** What [getDnsServers] resolves to *)




Lemma lowerData_Throw records record :
  record ∈ records -> rec_data record = None ->
  lowerData records = Throw TypeError.
Proof.
  induction records as [|r rs IH]; intros Hin Hnone; [inversion Hin|].
  simpl. apply elem_of_cons in Hin as [<-|Hin].
  - now rewrite Hnone.
  - destruct (rec_data r); [|reflexivity]. now rewrite (IH Hin Hnone).
Qed.


(** The three ways a lookup ends: the empty result; the nameservers of
    the [Answer] array; or what the [Authority] array gives when the
    [Answer] array gave nothing. *)
Lemma lookupResult_cases o :
  lookupResult o = emptyResult
  \/ (exists status data records l,
        o = FetchResponse status (Some data)
        /\ response_ok status = true /\ Status data = 0
        /\ Answer data = Some records /\ nsRecords records = Normal l
        /\ l <> [] /\ lookupResult o = {| servers := l; authority := None |})
  \/ (exists status data records auth l,
        o = FetchResponse status (Some data)
        /\ response_ok status = true /\ Status data = 0
        /\ answerless data
        /\ Authority data = Some records
        /\ soaAuthority records = Normal auth
        /\ nsRecords records = Normal l
        /\ (l <> [] \/ truthy_authority auth = true)
        /\ lookupResult o = {| servers := l; authority := auth |}).
Proof.
  unfold lookupResult.
  destruct o as [|status [data|]]; cbn; [auto| |destruct (response_ok status); auto].
  destruct (response_ok status) eqn:Eok; cbn; [|auto].
  destruct (Z.eqb_spec (Status data) 0) as [Estatus|]; cbn; [|auto].
  destruct (Answer data) as [answer|] eqn:Ea; cbn.
  - destruct (nsRecords answer) as [l|e] eqn:En; cbn; [|auto].
    destruct l as [|ns l]; cbn.
    + destruct (Authority data) as [records|] eqn:Eauth; cbn; [|auto].
      fold (soaAuthority records).
      destruct (soaAuthority records) as [auth|e] eqn:Esoa; cbn; [|auto].
      destruct (nsRecords records) as [l|e] eqn:Ens; cbn; [|auto].
      destruct l as [|ns l]; cbn.
      * destruct (truthy_authority auth) eqn:Et; cbn; [|auto].
        right; right. exists status, data, records, auth, [].
        repeat split; auto. right. exists answer. auto.
      * right; right. exists status, data, records, auth, (ns :: l).
        repeat split; auto. right. exists answer. auto.
    + right; left. exists status, data, answer, (ns :: l). repeat split; auto.
  - destruct (Authority data) as [records|] eqn:Eauth; cbn; [|auto].
    fold (soaAuthority records).
    destruct (soaAuthority records) as [auth|e] eqn:Esoa; cbn; [|auto].
    destruct (nsRecords records) as [l|e] eqn:Ens; cbn; [|auto].
    destruct l as [|ns l]; cbn.
    + destruct (truthy_authority auth) eqn:Et; cbn; [|auto].
      right; right. exists status, data, records, auth, [].
      repeat split; auto. now left.
    + right; right. exists status, data, records, auth, (ns :: l).
      repeat split; auto. now left.
Qed.





(** X6: a result without nameservers never carries an empty-string
    authority: the authority is then absent or a non-empty name. *)
Theorem no_servers_no_empty_authority o a :
  servers (lookupResult o) = [] ->
  authority (lookupResult o) = Some a ->
  a <> ""%string.
Proof.
  intros Hs Ha. destruct (lookupResult_cases o) as [E|[H|H]].
  - rewrite E in Ha. discriminate.
  - destruct H as (status & data & records & l & _ & _ & _ & _ & _ & _ & E).
    rewrite E in Ha. discriminate.
  - destruct H as (status & data & records & auth & l & _ & _ & _ & _ & _
                   & _ & _ & Hor & E).
    rewrite E in Hs, Ha. simpl in Hs, Ha. subst l auth.
    destruct Hor as [Hne|Ht]; [congruence|].
    intros ->. discriminate.
Qed.

Lemma no_servers_no_empty_authority_witness : "thirdparty.net"%string <> ""%string.
Proof.
  apply (no_servers_no_empty_authority
           (reply None (Some [soaRecord "ThirdParty.net" "ns.thirdparty.net"])));
    reflexivity.
Defined.

(** X7: one type-2 record without [data] in the [Answer] array voids the
    whole lookup: the [TypeError] is caught and the result is the empty
    one, whatever else the reply holds. *)
Theorem malformed_answer_record_voids_lookup status data records record :
  200 <= status <= 299 ->
  Status data = 0 ->
  Answer data = Some records ->
  record ∈ records ->
  rec_type record = 2 ->
  rec_data record = None ->
  lookupResult (FetchResponse status (Some data)) = emptyResult.
Proof.
  intros Hok Hst Ha Hin Htype Hdata.
  apply response_ok_spec in Hok.
  unfold lookupResult. cbn. rewrite Hok, Hst, Ha. cbn.
  unfold nsRecords. erewrite lowerData_Throw; [reflexivity| |exact Hdata].
  apply list_elem_of_In, List.filter_In. split; [now apply list_elem_of_In|].
  now apply Z.eqb_eq.
Qed.

Lemma malformed_answer_record_voids_lookup_witness :
  lookupResult
    (reply (Some [nsRecord "a.com" "ns1.reg.com";
                  {| rec_type := 2; rec_name := Some "a.com"%string; rec_data := None |}])
       (Some [soaRecord "a.com" "ns1.reg.com"; nsRecord "a.com" "ns2.reg.com"]))
  = emptyResult.
Proof.
  apply (malformed_answer_record_voids_lookup 200
           {| Status := 0;
              Answer := Some [nsRecord "a.com" "ns1.reg.com";
                              {| rec_type := 2; rec_name := Some "a.com"%string;
                                 rec_data := None |}];
              Authority := Some [soaRecord "a.com" "ns1.reg.com";
                                 nsRecord "a.com" "ns2.reg.com"] |}
           [nsRecord "a.com" "ns1.reg.com";
            {| rec_type := 2; rec_name := Some "a.com"%string; rec_data := None |}]
           {| rec_type := 2; rec_name := Some "a.com"%string; rec_data := None |}
           ltac:(lia) ltac:(reflexivity) ltac:(reflexivity)).
  - apply list_elem_of_further, list_elem_of_here.
  - reflexivity.
  - reflexivity.
Defined.

(** ** What an evaluation stores *)

Lemma run_uncached_turn env domain n st :
  isSubdomain domain ->
  turn (run env (shouldBlockDomain_uncached domain) n st) = S (S n).
Proof.
  intros H. apply String.eqb_neq in H.
  unfold shouldBlockDomain_uncached. cbv zeta. rewrite H. cbn.
  split_ifs; reflexivity.
Qed.

(** The state after an evaluation: the verdict is cached on the last
    return path only. *)
Lemma run_uncached_final env domain n st :
  isSubdomain domain ->
  let domainResult := lookupResult (network env n (dohUrl domain)) in
  let rootResult :=
    lookupResult (network env (S n) (dohUrl (getRootDomain domain))) in
  final (run env (shouldBlockDomain_uncached domain) n st) =
    if Nat.eqb (length (servers rootResult)) 0 then st
    else if foreignAuthority (authority domainResult) (getRootDomain domain) then st
    else if Nat.ltb 0 (length (servers domainResult)) then st
    else set_dnsCache st
           (<[domain := {| shouldBlock := true; timestamp := clock env (S (S n)) |}]>
              (dnsCache st)).
Proof.
  intros H. apply String.eqb_neq in H.
  unfold shouldBlockDomain_uncached. cbv zeta. rewrite H. cbn.
  split_ifs; reflexivity.
Qed.

(** X8: a call of [shouldBlockDomain] never touches [blockingDecisions]
    or [activeRootDomains], and it leaves [dnsCache] as it was or adds one
    entry, for its own hostname, holding the verdict [true] it returns and
    the time of its last turn. *)
Theorem evaluation_caches_only_its_block env domain n st :
  let r := run env (shouldBlockDomain domain) n st in
  blockingDecisions (final r) = blockingDecisions st
  /\ activeRootDomains (final r) = activeRootDomains st
  /\ (dnsCache (final r) = dnsCache st
      \/ (value r = true
          /\ dnsCache (final r) =
             <[domain := {| shouldBlock := true; timestamp := clock env (turn r) |}]>
               (dnsCache st))).
Proof.
  cbv zeta. rewrite run_shouldBlockDomain.
  destruct (cachedVerdict st domain (clock env n)); [simpl; auto|].
  destruct (String.eqb_spec domain (getRootDomain domain)) as [Heq|Hne].
  - rewrite (run_uncached_root _ _ _ _ Heq). simpl. auto.
  - rewrite (run_uncached_final _ _ _ _ Hne), (run_uncached_value _ _ _ _ Hne),
      (run_uncached_turn _ _ _ _ Hne).
    cbv zeta. split_ifs; simpl; auto.
Qed.

(** X9: [shouldBlockDomain] blocks only on a cached block verdict or
    after a root lookup that returned nameservers: when the root's lookup
    fails or is empty, a fresh evaluation never blocks. *)
Theorem block_needs_root_nameservers env domain n st :
  let r := run env (shouldBlockDomain domain) n st in
  value r = true ->
  cachedVerdict st domain (clock env n) = Some true
  \/ (exists domainResult rootResult,
         lookedUp r domain domainResult rootResult
         /\ servers rootResult <> []).
Proof.
  cbv zeta. rewrite run_shouldBlockDomain.
  destruct (cachedVerdict st domain (clock env n)) as [b|];
    [simpl; intros ->; auto|].
  destruct (String.eqb_spec domain (getRootDomain domain)) as [Heq|Hne].
  - rewrite (run_uncached_root _ _ _ _ Heq). discriminate.
  - rewrite (run_uncached_value _ _ _ _ Hne). cbv zeta. intros Hv. right.
    eexists _, _. split.
    + eexists _, _. split; [now apply run_uncached_calls|]. split; reflexivity.
    + intros Hnil. rewrite Hnil in Hv. discriminate.
Qed.

Lemma block_needs_root_nameservers_witness :
  cachedVerdict initialExt "x.a.com" (clock demoEnv 0) = Some true
  \/ (exists domainResult rootResult,
         lookedUp (run demoEnv (shouldBlockDomain "x.a.com") 0 initialExt)
           "x.a.com" domainResult rootResult
         /\ servers rootResult <> []).
Proof.
  apply (block_needs_root_nameservers demoEnv "x.a.com" 0 initialExt).
  reflexivity.
Defined.

(** X10: a failed lookup of the hostname blocks it.  When the [try] block
    of the hostname's lookup throws (rejected fetch, non-2xx status,
    unparsable or malformed body) while the root's lookup returns
    nameservers, a fresh evaluation returns [true] and caches it. *)
Theorem failed_subdomain_lookup_blocks env domain n st e :
  cachedVerdict st domain (clock env n) = None ->
  isSubdomain domain ->
  getDnsServers_try (network env n (dohUrl domain)) = Throw e ->
  servers (lookupResult (network env (S n) (dohUrl (getRootDomain domain)))) <> [] ->
  let r := run env (shouldBlockDomain domain) n st in
  value r = true
  /\ dnsCache (final r) !! domain
     = Some {| shouldBlock := true; timestamp := clock env (S (S n)) |}.
Proof.
  intros Hmiss Hsub Hthrow Hroot. cbv zeta.
  rewrite run_shouldBlockDomain, Hmiss.
  rewrite (run_uncached_final _ _ _ _ Hsub), (run_uncached_value _ _ _ _ Hsub).
  cbv zeta.
  assert (lookupResult (network env n (dohUrl domain)) = emptyResult) as ->
    by (unfold lookupResult; now rewrite Hthrow).
  destruct (Nat.eqb (length _) 0) eqn:E; [apply length_eqb_0 in E; contradiction|].
  split; [reflexivity|]. simpl. apply lookup_insert_eq.
Qed.

Lemma failed_subdomain_lookup_blocks_witness :
  let env := scripted [("a.com"%string, reply (Some [nsRecord "a.com" "ns1.reg.com"]) None);
                       ("cdn.a.com"%string, FetchResponse 502 None)] in
  let r := run env (shouldBlockDomain "cdn.a.com") 0 initialExt in
  value r = true
  /\ dnsCache (final r) !! "cdn.a.com"%string
     = Some {| shouldBlock := true; timestamp := 2000 |}.
Proof.
  apply (failed_subdomain_lookup_blocks
           (scripted [("a.com"%string, reply (Some [nsRecord "a.com" "ns1.reg.com"]) None);
                      ("cdn.a.com"%string, FetchResponse 502 None)])
           "cdn.a.com" 0 initialExt (HttpError 502)).
  - reflexivity.
  - vm_compute. discriminate.
  - reflexivity.
  - vm_compute. discriminate.
Defined.

(** X11: a verdict stored by an evaluation is served back.  After an
    evaluation that found no nameservers for the hostname, no foreign
    authority, and nameservers for the root, a second call whose clock
    reads less than five minutes after the first one's last turn returns
    [true] with no network call and no change of state. *)
Theorem stored_verdict_is_served env domain n st m domainResult rootResult :
  let r1 := run env (shouldBlockDomain domain) n st in
  lookedUp r1 domain domainResult rootResult ->
  servers rootResult <> [] ->
  servers domainResult = [] ->
  foreignAuthority (authority domainResult) (getRootDomain domain) = false ->
  clock env m - clock env (turn r1) < cacheTTL ->
  run env (shouldBlockDomain domain) m (final r1) =
    {| value := true; final := final r1; turn := m; calls := [] |}.
Proof.
  intros r1 Hlook Hroot Hnone Hauth Hfresh. subst r1.
  destruct (lookedUp_inv _ _ _ _ _ _ Hlook) as (Hmiss & Hsub & -> & ->).
  assert (run env (shouldBlockDomain domain) n st
          = run env (shouldBlockDomain_uncached domain) n st) as Hr1
    by (now rewrite run_shouldBlockDomain, Hmiss).
  rewrite Hr1 in Hfresh |- *. clear Hr1.
  rewrite (run_uncached_turn _ _ _ _ Hsub) in Hfresh.
  rewrite (run_uncached_final _ _ _ _ Hsub). cbv zeta. rewrite Hauth, Hnone.
  destruct (Nat.eqb (length _) 0) eqn:E; [apply length_eqb_0 in E; contradiction|].
  change (Nat.ltb 0 (length (@nil string))) with false. cbv iota.
  rewrite run_shouldBlockDomain.
  rewrite (cachedVerdict_fresh _ _ _
             {| shouldBlock := true; timestamp := clock env (S (S n)) |});
    [reflexivity | apply lookup_insert_eq | exact Hfresh].
Qed.

Lemma stored_verdict_is_served_witness :
  let r1 := run demoEnv (shouldBlockDomain "x.a.com") 0 initialExt in
  run demoEnv (shouldBlockDomain "x.a.com") 200 (final r1) =
    {| value := true; final := final r1; turn := 200; calls := [] |}.
Proof.
  apply (stored_verdict_is_served demoEnv "x.a.com" 0 initialExt 200
           emptyResult {| servers := ["ns1.reg.com"%string]; authority := None |}
           ltac:(eexists _, _; repeat split; reflexivity)
           ltac:(discriminate) ltac:(reflexivity) ltac:(reflexivity)).
  vm_compute. reflexivity.
Defined.

(** ** More on the listeners and the event loop *)

Lemma cachesOnlyBlocks_decisionPromise domain :
  cachesOnlyBlocks (decisionPromise domain).
Proof.
  unfold decisionPromise, shouldBlockDomain. cbn. intros [entry|]; cbn.
  - intros now. destruct (now - timestamp entry <? cacheTTL); cbn; [exact I|].
    unfold shouldBlockDomain_uncached. cbv zeta.
    destruct (String.eqb domain (getRootDomain domain)); cbn; [exact I|].
    intros o1 o2. split_ifs; cbn; auto.
  - unfold shouldBlockDomain_uncached. cbv zeta.
    destruct (String.eqb domain (getRootDomain domain)); cbn; [exact I|].
    intros o1 o2. split_ifs; cbn; auto.
Qed.

Lemma settlesDecision_decisionPromise domain :
  settlesDecision domain (decisionPromise domain).
Proof.
  unfold decisionPromise, shouldBlockDomain. cbn. intros [entry|]; cbn.
  - intros now. destruct (now - timestamp entry <? cacheTTL); cbn; [auto|].
    unfold shouldBlockDomain_uncached. cbv zeta.
    destruct (String.eqb domain (getRootDomain domain)); cbn; [auto|].
    intros o1 o2. split_ifs; cbn; auto.
  - unfold shouldBlockDomain_uncached. cbv zeta.
    destruct (String.eqb domain (getRootDomain domain)); cbn; [auto|].
    intros o1 o2. split_ifs; cbn; auto.
Qed.

Lemma exec_keeps_blocks now p : forall st,
  (forall k e, dnsCache st !! k = Some e -> shouldBlock e = true) ->
  cachesOnlyBlocks p ->
  (forall k e, dnsCache (fst (exec now p st)) !! k = Some e -> shouldBlock e = true)
  /\ match snd (exec now p st) with
     | Done _ => True
     | Awaiting _ k => forall o, cachesOnlyBlocks (k o)
     end.
Proof.
  induction p as [a|k IH|key k IH|key entry k IH|key b k IH|url k IH];
    intros st Hst Hp; simpl in *; auto.
  destruct Hp as [Hentry Hp]. apply IH; [|assumption].
  intros k' e. simpl. rewrite lookup_insert. case_decide; [|apply Hst].
  intros [= <-]. assumption.
Qed.

Lemma exec_settles now domain p : forall st,
  settlesDecision domain p ->
  match exec now p st with
  | (st', Done r) => blockingDecisions st' !! domain = Some (cancel r)
  | (_, Awaiting _ k) => forall o, settlesDecision domain (k o)
  end.
Proof.
  induction p as [a|k IH|key k IH|key entry k IH|key b k IH|url k IH];
    intros st Hp; simpl in *.
  - contradiction.
  - apply IH, Hp.
  - apply IH, Hp.
  - apply IH, Hp.
  - destruct Hp as [-> ->]. simpl. apply lookup_insert_eq.
  - exact Hp.
Qed.

Lemma exec_keeps_active now p : forall st,
  activeRootDomains (fst (exec now p st)) = activeRootDomains st.
Proof.
  induction p as [a|k IH|key k IH|key entry k IH|key b k IH|url k IH];
    intros st; simpl; auto.
  - now rewrite IH.
  - now rewrite IH.
Qed.

Lemma exec_keeps_entries now p : forall st,
  (forall k, is_Some (dnsCache st !! k) -> is_Some (dnsCache (fst (exec now p st)) !! k))
  /\ (forall k, is_Some (blockingDecisions st !! k) ->
                is_Some (blockingDecisions (fst (exec now p st)) !! k)).
Proof.
  induction p as [a|k IH|key k IH|key entry k IH|key b k IH|url k IH];
    intros st; simpl; auto.
  - destruct (IH (set_dnsCache st (<[key:=entry]> (dnsCache st)))) as [Hc Hd].
    split; [|exact Hd]. intros k' Hk'. apply Hc. simpl.
    rewrite lookup_insert. case_decide; [eauto | assumption].
  - destruct (IH (set_blockingDecisions st (<[key:=b]> (blockingDecisions st))))
      as [Hc Hd].
    split; [exact Hc|]. intros k' Hk'. apply Hd. simpl.
    rewrite lookup_insert. case_decide; [eauto | assumption].
Qed.

Section LoopFurther.

Variable URL_hostname : string -> option string.

Local Abbreviation onBeforeRequest := (onBeforeRequest URL_hostname).
Local Abbreviation onBeforeSendHeaders := (onBeforeSendHeaders URL_hostname).
Local Abbreviation extractDomain := (extractDomain URL_hostname).
Local Abbreviation tabRootDomains := (tabRootDomains URL_hostname).
Local Abbreviation onTabUpdated := (onTabUpdated URL_hostname).
Local Abbreviation onTabsAfterRemoval := (onTabsAfterRemoval URL_hostname).
Local Abbreviation loop_step := (loop_step URL_hostname).
Local Abbreviation loop_run := (loop_run URL_hostname).
Local Abbreviation Reachable := (Reachable URL_hostname).

(** X12: the listener starts an evaluation exactly when the URL parses
    to a non-empty hostname other than [dns.google], whose root is among
    the active root domains, which is not that root itself, and for which
    no decision is stored. *)
Theorem evaluation_starts_exactly_when st url domain :
  onBeforeRequest st url = PromiseFor domain
  <-> extractDomain url = Some domain
      /\ domain <> ""%string
      /\ domain <> "dns.google"%string
      /\ getRootDomain domain ∈ activeRootDomains st
      /\ isSubdomain domain
      /\ blockingDecisions st !! domain = None.
Proof.
  split; [apply onBeforeRequest_promise|].
  intros (H1 & H2 & H3 & H4 & H5 & H6). now apply onBeforeRequest_starts.
Qed.

(** X13: the listener cancels a request at once only on a stored block
    decision for a proper subdomain of an active root domain; a URL that
    does not parse, [dns.google], a hostname outside the active roots and a
    root domain are never cancelled, whatever is stored. *)
Theorem immediate_cancel_needs_stored_block st url :
  onBeforeRequest st url = Value {| cancel := true |} ->
  exists domain,
    extractDomain url = Some domain
    /\ domain <> "dns.google"%string
    /\ getRootDomain domain ∈ activeRootDomains st
    /\ isSubdomain domain
    /\ blockingDecisions st !! domain = Some true.
Proof.
  unfold onBeforeRequest.
  destruct (extractDomain url) as [d|]; [|discriminate].
  destruct d as [|c d']; [discriminate|]. cbn [Js.truthy negb].
  destruct (String.eqb_spec (String c d') "dns.google"); [discriminate|].
  cbv zeta. case_bool_decide; [|discriminate]. cbn [negb].
  destruct (String.eqb_spec (String c d') (getRootDomain (String c d')));
    [discriminate|].
  destruct (blockingDecisions st !! String c d') as [decision|] eqn:E;
    [|discriminate].
  intros [= ->]. exists (String c d'). auto.
Qed.

(** X14: in every state the extension can reach, the headers-phase
    listener cancels a request only for a proper subdomain with a stored
    block decision; it never cancels a request to a root domain. *)
Theorem headers_phase_cancels_only_subdomains L url r :
  Reachable L ->
  onBeforeSendHeaders (ext L) url = Some r ->
  r = {| cancel := true |}
  /\ exists domain,
       extractDomain url = Some domain
       /\ isSubdomain domain
       /\ blockingDecisions (ext L) !! domain = Some true.
Proof.
  intros HL. unfold onBeforeSendHeaders.
  destruct (extractDomain url) as [d|]; [|discriminate].
  destruct (Js.truthy d); [|discriminate]. cbn [negb].
  destruct (blockingDecisions (ext L) !! d) as [[|]|] eqn:E; try discriminate.
  intros [= <-]. split; [reflexivity|]. exists d. repeat split; auto.
  destruct (Reachable_inv URL_hostname L HL) as [[_ Hd] _]. exact (Hd _ _ E).
Qed.

Lemma advance_keeps_evaluations L others domain now p :
  (forall k e, dnsCache (ext L) !! k = Some e -> shouldBlock e = true) ->
  Forall (fun t => forall o,
              cachesOnlyBlocks (task_k t o)
              /\ settlesDecision (task_domain t) (task_k t o)) others ->
  cachesOnlyBlocks p ->
  settlesDecision domain p ->
  EvaluationInv (advance L others domain now p).
Proof.
  intros Hst Hothers Hblocks Hsettles. unfold advance.
  destruct (exec_keeps_blocks now p (ext L) Hst Hblocks) as [Hc Hk].
  pose proof (exec_settles now domain p (ext L) Hsettles) as Hs.
  destruct (exec now p (ext L)) as [st [r|url k]]; simpl in *.
  - split; assumption.
  - split; [assumption|]. apply Forall_app. split; [assumption|].
    constructor; [|constructor]. intros o. simpl. auto.
Qed.

Lemma loop_step_keeps_evaluations L ev :
  EvaluationInv L -> EvaluationInv (loop_step L ev).
Proof.
  intros [Hst Hpending]. destruct ev as [url now|i o now|u|tabs|tabs]; simpl.
  - destruct (onBeforeRequest (ext L) url) as [r|domain] eqn:E.
    + split; assumption.
    + apply advance_keeps_evaluations;
        [exact Hst | exact Hpending
        | apply cachesOnlyBlocks_decisionPromise
        | apply settlesDecision_decisionPromise].
  - destruct (pending L !! i) as [t|] eqn:E; [|split; assumption].
    destruct (Forall_lookup_1 _ _ _ _ Hpending E o) as [Hb Hs].
    apply advance_keeps_evaluations; [exact Hst | now apply Forall_delete | exact Hb | exact Hs].
  - split; assumption.
  - split; assumption.
  - split; assumption.
Qed.

Lemma Reachable_evaluations L : Reachable L -> EvaluationInv L.
Proof.
  induction 1; [|now apply loop_step_keeps_evaluations].
  split; [|constructor]. intros k e. simpl. rewrite lookup_empty. discriminate.
Qed.

(** X15: in every state the extension can reach, a verdict served from
    [dnsCache] is a block: the cache never holds an allow verdict. *)
Theorem cache_hits_always_block L domain now verdict :
  Reachable L ->
  cachedVerdict (ext L) domain now = Some verdict ->
  verdict = true.
Proof.
  intros HL. unfold cachedVerdict.
  destruct (dnsCache (ext L) !! domain) as [e|] eqn:E; [|discriminate].
  destruct (now - timestamp e <? cacheTTL); [|discriminate].
  intros [= <-]. destruct (Reachable_evaluations L HL) as [Hc _]. exact (Hc _ _ E).
Qed.

(** X16: when the fetch of a suspended evaluation settles, the evaluation
    either stays suspended on its next fetch and answers nothing, or it
    completes: then its verdict, [true] or [false], is stored in
    [blockingDecisions] under its hostname and is the answer it gives. *)
Theorem completed_evaluation_stores_its_verdict L i t o now :
  Reachable L ->
  pending L !! i = Some t ->
  let L' := loop_step L (FetchSettled i o now) in
  (responses L' = responses L /\ length (pending L') = length (pending L))
  \/ (exists verdict,
        responses L' = responses L ++ [(task_domain t, {| cancel := verdict |})]
        /\ blockingDecisions (ext L') !! task_domain t = Some verdict
        /\ S (length (pending L')) = length (pending L)).
Proof.
  intros HL Ht. cbv zeta. unfold loop_step. rewrite Ht.
  destruct (Reachable_evaluations L HL) as [_ Hpending].
  destruct (Forall_lookup_1 _ _ _ _ Hpending Ht o) as [_ Hs].
  pose proof (exec_settles now _ _ (ext L) Hs) as Hexec.
  assert (length (delete i (pending L)) = (length (pending L) - 1)%nat) as Hlen
    by (apply length_delete; eauto).
  assert (0 < length (pending L))%nat as Hpos
    by (apply lookup_lt_Some in Ht; lia).
  unfold advance. destruct (exec now (task_k t o) (ext L)) as [st [[verdict]|url k]].
  - right. exists verdict. simpl in *. repeat split; auto. lia.
  - left. simpl. split; [reflexivity|]. rewrite length_app. simpl. lia.
Qed.

Lemma loop_step_keeps_entries L ev :
  (forall k, is_Some (dnsCache (ext L) !! k) ->
             is_Some (dnsCache (ext (loop_step L ev)) !! k))
  /\ (forall k, is_Some (blockingDecisions (ext L) !! k) ->
                is_Some (blockingDecisions (ext (loop_step L ev)) !! k)).
Proof.
  assert (forall L0 others domain now p,
             ext (advance L0 others domain now p) = fst (exec now p (ext L0))) as Hadv.
  { intros. unfold advance. destruct (exec _ _ _) as [st [r|u k]]; reflexivity. }
  destruct ev as [url now|i o now|u|tabs|tabs]; simpl; auto.
  - destruct (onBeforeRequest (ext L) url); simpl; auto.
    rewrite Hadv. apply exec_keeps_entries.
  - destruct (pending L !! i); auto. rewrite Hadv. apply exec_keeps_entries.
Qed.

(** X17: nothing is ever removed from [dnsCache] or [blockingDecisions]:
    a hostname with an entry keeps one through every sequence of events,
    expired cache entries included. *)
Theorem stored_entries_are_never_removed evs : forall L k,
  (is_Some (dnsCache (ext L) !! k) ->
   is_Some (dnsCache (ext (loop_run L evs)) !! k))
  /\ (is_Some (blockingDecisions (ext L) !! k) ->
      is_Some (blockingDecisions (ext (loop_run L evs)) !! k)).
Proof.
  induction evs as [|ev evs IH]; intros L k; simpl; [auto|].
  destruct (loop_step_keeps_entries L ev) as [Hc Hd].
  destruct (IH (loop_step L ev) k) as [IHc IHd]. split; auto.
Qed.

(** ** The set of active root domains *)

Lemma truthy_nonempty s : Js.truthy s = true <-> s <> ""%string.
Proof. destruct s; simpl; split; congruence. Qed.

Lemma tabRootDomains_fold tabs : forall (acc : gset string) root,
  root ∈ foldl (fun acc tab =>
                  match tab with
                  | Some url =>
                      if Js.truthy url then
                        match extractDomain url with
                        | Some domain =>
                            if Js.truthy domain
                            then {[ getRootDomain domain ]} ∪ acc
                            else acc
                        | None => acc
                        end
                      else acc
                  | None => acc
                  end) acc tabs
  <-> root ∈ acc
      \/ exists url domain,
           Some url ∈ tabs /\ url <> ""%string
           /\ extractDomain url = Some domain /\ domain <> ""%string
           /\ root = getRootDomain domain.
Proof.
  induction tabs as [|tab tabs IH]; intros acc root; simpl.
  - split; [auto|]. intros [H|(url & domain & Hin & _)]; [assumption|].
    inversion Hin.
  - rewrite IH. clear IH. split.
    + intros [Hacc|(url & domain & Hin & H)].
      * destruct tab as [url|]; [|auto].
        destruct (Js.truthy url) eqn:Eu; [|auto].
        destruct (extractDomain url) as [domain|] eqn:Ed; [|auto].
        destruct (Js.truthy domain) eqn:Et; [|auto].
        apply elem_of_union in Hacc as [Hnew%elem_of_singleton|Hacc]; [|auto].
        right. exists url, domain. apply truthy_nonempty in Eu, Et.
        repeat split; auto. apply list_elem_of_here.
      * right. exists url, domain. split; [now apply list_elem_of_further | exact H].
    + intros [Hacc|(url & domain & Hin & Hu & Hd & Ht & Hroot)].
      * left. destruct tab as [url|]; [|assumption].
        destruct (Js.truthy url); [|assumption].
        destruct (extractDomain url) as [domain|]; [|assumption].
        destruct (Js.truthy domain); [|assumption].
        apply elem_of_union. now right.
      * apply elem_of_cons in Hin as [Heq|Hin].
        -- left. subst tab. apply truthy_nonempty in Hu, Ht.
           rewrite Hu, Hd, Ht. apply elem_of_union. left.
           now apply elem_of_singleton.
        -- right. exists url, domain. auto.
Qed.

Lemma tabRootDomains_spec tabs root :
  root ∈ tabRootDomains tabs
  <-> exists url domain,
        Some url ∈ tabs /\ url <> ""%string
        /\ extractDomain url = Some domain /\ domain <> ""%string
        /\ root = getRootDomain domain.
Proof.
  unfold tabRootDomains. rewrite tabRootDomains_fold. split; [|auto].
  intros [H|H]; [|exact H]. now apply elem_of_empty in H.
Qed.

(** X18: the callback that follows the closing of a tab rebuilds
    [activeRootDomains] from the tabs that remain: afterwards a name is in
    the set exactly when it is the root domain of the non-empty hostname
    of some remaining tab's URL, whatever the set held before. *)
Theorem removal_rebuilds_active_roots st tabs root :
  root ∈ activeRootDomains (onTabsAfterRemoval st tabs)
  <-> exists url domain,
        Some url ∈ tabs /\ url <> ""%string
        /\ extractDomain url = Some domain /\ domain <> ""%string
        /\ root = getRootDomain domain.
Proof. unfold onTabsAfterRemoval. simpl. apply tabRootDomains_spec. Qed.

(** X19: a tab update never removes an active root domain; it adds the
    root domain of the new URL's hostname when the URL is a non-empty
    string that parses to a non-empty hostname, and nothing otherwise. *)
Theorem tab_update_only_adds st changeInfo_url root :
  root ∈ activeRootDomains (onTabUpdated st changeInfo_url)
  <-> root ∈ activeRootDomains st
      \/ exists url domain,
           changeInfo_url = Some url /\ url <> ""%string
           /\ extractDomain url = Some domain /\ domain <> ""%string
           /\ root = getRootDomain domain.
Proof.
  unfold onTabUpdated. simpl. rewrite elem_of_union, tabRootDomains_spec.
  split.
  - intros [(url & domain & Hin%list_elem_of_singleton & H)|H]; [|auto].
    right. exists url, domain. split; [now symmetry | exact H].
  - intros [H|(url & domain & -> & H)]; [auto|].
    left. exists url, domain. split; [apply list_elem_of_here | exact H].
Qed.

Lemma loop_step_active_roots L ev :
  (forall root, root ∈ activeRootDomains (ext L) -> getRootDomain root = root) ->
  forall root, root ∈ activeRootDomains (ext (loop_step L ev)) ->
               getRootDomain root = root.
Proof.
  assert (forall L0 others domain now p,
             ext (advance L0 others domain now p) = fst (exec now p (ext L0))) as Hadv.
  { intros. unfold advance. destruct (exec _ _ _) as [st [r|u k]]; reflexivity. }
  intros HL root. destruct ev as [url now|i o now|u|tabs|tabs]; simpl.
  - destruct (onBeforeRequest (ext L) url); simpl; [apply HL|].
    rewrite Hadv, exec_keeps_active. apply HL.
  - destruct (pending L !! i); [|apply HL].
    rewrite Hadv, exec_keeps_active. apply HL.
  - rewrite elem_of_union, tabRootDomains_spec. intros [H|H]; [|now apply HL].
    destruct H as (url & domain & _ & _ & _ & _ & ->). apply root_of_root.
  - intros H%tabRootDomains_spec.
    destruct H as (url & domain & _ & _ & _ & _ & ->). apply root_of_root.
  - rewrite elem_of_union, tabRootDomains_spec. intros [H|H]; [|now apply HL].
    destruct H as (url & domain & _ & _ & _ & _ & ->). apply root_of_root.
Qed.

(** X20: in every state the extension can reach, every member of
    [activeRootDomains] is its own root domain (it has at most two
    labels). *)
Theorem active_roots_are_roots L root :
  Reachable L ->
  root ∈ activeRootDomains (ext L) ->
  getRootDomain root = root.
Proof.
  intros HL. revert root. induction HL as [|L ev HL IH].
  - intros root H. simpl in H. now apply elem_of_empty in H.
  - now apply loop_step_active_roots.
Qed.

(** ** A request on its own *)

Lemma run_bind {A B} env (m : async A) (f : A -> async B) : forall n st,
  run env (bind m f) n st =
  let r1 := run env m n st in
  let r2 := run env (f (value r1)) (turn r1) (final r1) in
  {| value := value r2; final := final r2; turn := turn r2;
     calls := calls r1 ++ calls r2 |}.
Proof.
  induction m as [a|k IH|key k IH|key entry k IH|key b k IH|url k IH];
    intros n st; simpl; auto.
  - now destruct (run env (f a) n st).
  - rewrite IH. reflexivity.
Qed.

Lemma run_decisionPromise env h n st :
  let r := run env (shouldBlockDomain h) n st in
  run env (decisionPromise h) n st =
  {| value := {| cancel := value r |};
     final := set_blockingDecisions (final r)
                (<[h := value r]> (blockingDecisions (final r)));
     turn := turn r;
     calls := calls r |}.
Proof.
  cbv zeta.
  assert (decisionPromise h
          = bind (shouldBlockDomain h)
              (fun b => DecisionSet h b (Ret {| cancel := b |}))) as ->
    by reflexivity.
  rewrite run_bind. cbn. now rewrite app_nil_r.
Qed.

Lemma calls_at_most_two env h n st :
  (length (calls (run env (decisionPromise h) n st)) <= 2)%nat.
Proof.
  rewrite run_decisionPromise. cbn [calls]. rewrite run_shouldBlockDomain.
  destruct (cachedVerdict st h (clock env n)); [simpl; lia|].
  destruct (String.eqb_spec h (getRootDomain h)) as [Heq|Hne].
  - rewrite (run_uncached_root _ _ _ _ Heq). simpl. lia.
  - rewrite (run_uncached_calls _ _ _ _ Hne). simpl. lia.
Qed.

Lemma step_request L url h now :
  onBeforeRequest (ext L) url = PromiseFor h ->
  loop_step L (WebRequest url now) =
  advance {| ext := ext L; pending := pending L;
             evaluations := evaluations L ++ [h];
             fetches := fetches L; responses := responses L |}
    (pending L) h now (decisionPromise h).
Proof. intros H. unfold loop_step. now rewrite H. Qed.

Lemma step_settled L i o now :
  loop_step L (FetchSettled i o now) =
  match pending L !! i with
  | Some t => advance L (delete i (pending L)) (task_domain t) now (task_k t o)
  | None => L
  end.
Proof. reflexivity. Qed.

Lemma advance_done L others domain now p st r :
  exec now p (ext L) = (st, Done r) ->
  advance L others domain now p =
  {| ext := st; pending := others; evaluations := evaluations L;
     fetches := fetches L; responses := responses L ++ [(domain, r)] |}.
Proof. intros H. unfold advance. now rewrite H. Qed.

Lemma advance_awaiting L others domain now p st url k :
  exec now p (ext L) = (st, Awaiting url k) ->
  advance L others domain now p =
  {| ext := st;
     pending := others ++ [{| task_domain := domain; task_url := url; task_k := k |}];
     evaluations := evaluations L; fetches := fetches L ++ [url];
     responses := responses L |}.
Proof. intros H. unfold advance. now rewrite H. Qed.

Lemma run_exec_done env p n st st' r :
  exec (clock env n) p st = (st', Done r) ->
  run env p n st = {| value := r; final := st'; turn := n; calls := [] |}.
Proof. intros H. rewrite run_exec. now rewrite H. Qed.

Lemma run_exec_awaiting env p n st st' url k :
  exec (clock env n) p st = (st', Awaiting url k) ->
  run env p n st =
  let o := network env n url in
  let r := run env (k o) (S n) st' in
  {| value := value r; final := final r; turn := turn r;
     calls := (url, o) :: calls r |}.
Proof. intros H. rewrite run_exec. now rewrite H. Qed.

Lemma settled_at_head L t o now :
  pending L = [t] ->
  loop_step L (FetchSettled 0 o now) = advance L [] (task_domain t) now (task_k t o).
Proof. intros H. rewrite step_settled, H. reflexivity. Qed.

Lemma settled_on_idle L i o now :
  pending L = [] -> loop_step L (FetchSettled i o now) = L.
Proof. intros H. rewrite step_settled, H. reflexivity. Qed.

Lemma loop_run_cons L ev evs :
  loop_run L (ev :: evs) = loop_run (loop_step L ev) evs.
Proof. reflexivity. Qed.

Lemma loop_run_nil L : loop_run L [] = L.
Proof. reflexivity. Qed.

(** X21: a request that starts an evaluation while nothing else is in
    flight, followed by the settling of its fetches, leaves the extension
    in the state, and gives the answer, of the promise executor run on its
    own with the same clock readings and fetch outcomes: the verdict is
    stored, [true] or [false], and no evaluation stays suspended. *)
Theorem lone_request_agrees_with_run L url h t0 t1 t2 o1 o2 :
  pending L = [] ->
  onBeforeRequest (ext L) url = PromiseFor h ->
  let r := run (turnByTurn [t0; t1; t2] [o1; o2]) (decisionPromise h) 0 (ext L) in
  let L' := loop_run L [ WebRequest url t0; FetchSettled 0 o1 t1;
                         FetchSettled 0 o2 t2 ] in
  ext L' = final r
  /\ pending L' = []
  /\ responses L' = responses L ++ [(h, value r)]
  /\ fetches L' = fetches L ++ map fst (calls r)
  /\ evaluations L' = evaluations L ++ [h]
  /\ blockingDecisions (ext L') !! h = Some (cancel (value r)).
Proof.
  intros Hpending Hpromise. cbv zeta.
  set (env := turnByTurn [t0; t1; t2] [o1; o2]).
  pose proof (calls_at_most_two env h 0 (ext L)) as Hbound.
  pose proof (exec_settles t0 h _ (ext L) (settlesDecision_decisionPromise h))
    as Hs0.
  rewrite loop_run_cons, (step_request _ _ _ _ Hpromise).
  destruct (exec t0 (decisionPromise h) (ext L)) as [st1 [r0|u1 k1]] eqn:E0.
  { erewrite advance_done by exact E0. rewrite Hpending.
    rewrite loop_run_cons, settled_on_idle by reflexivity.
    rewrite loop_run_cons, settled_on_idle by reflexivity.
    rewrite loop_run_nil, (run_exec_done env _ 0 _ _ _ E0). cbn.
    rewrite ?app_nil_r. auto 10. }
  erewrite advance_awaiting by exact E0. rewrite Hpending.
  rewrite (run_exec_awaiting env _ 0 _ _ _ _ E0) in Hbound |- *.
  cbv zeta in Hbound |- *.
  change (network env 0 u1) with o1 in Hbound |- *.
  pose proof (exec_settles t1 h _ st1 (Hs0 o1)) as Hs1.
  rewrite loop_run_cons. erewrite settled_at_head by reflexivity.
  cbn [task_domain task_k].
  destruct (exec t1 (k1 o1) st1) as [st2 [r1|u2 k2]] eqn:E1.
  { erewrite advance_done by exact E1.
    rewrite loop_run_cons, settled_on_idle by reflexivity.
    rewrite loop_run_nil, (run_exec_done env _ 1 _ _ _ E1). cbn.
    rewrite <- ?app_assoc. auto 10. }
  erewrite advance_awaiting by exact E1.
  rewrite (run_exec_awaiting env _ 1 _ _ _ _ E1) in Hbound |- *.
  cbv zeta in Hbound |- *.
  change (network env 1 u2) with o2 in Hbound |- *.
  pose proof (exec_settles t2 h _ st2 (Hs1 o2)) as Hs2.
  rewrite loop_run_cons. erewrite settled_at_head by reflexivity.
  cbn [task_domain task_k].
  destruct (exec t2 (k2 o2) st2) as [st3 [r2|u3 k3]] eqn:E2.
  - erewrite advance_done by exact E2.
    rewrite loop_run_nil, (run_exec_done env _ 2 _ _ _ E2). cbn.
    rewrite <- ?app_assoc. auto 10.
  - rewrite (run_exec_awaiting env _ 2 _ _ _ _ E2) in Hbound.
    cbn in Hbound. lia.
Qed.

End LoopFurther.

(** ** Closed runs for the further properties *)

Lemma demoLoop_reachable : Reachable simpleHostname demoLoop.
Proof. unfold demoLoop, tabsOpen. do 2 apply Reachable_run. constructor. Qed.

Lemma immediate_cancel_needs_stored_block_witness :
  exists domain,
    extractDomain simpleHostname "https://x.a.com/other.js" = Some domain
    /\ domain <> "dns.google"%string
    /\ getRootDomain domain ∈ activeRootDomains (ext demoLoop)
    /\ isSubdomain domain
    /\ blockingDecisions (ext demoLoop) !! domain = Some true.
Proof.
  apply (immediate_cancel_needs_stored_block simpleHostname (ext demoLoop)
           "https://x.a.com/other.js").
  reflexivity.
Defined.

Lemma headers_phase_cancels_only_subdomains_witness :
  {| cancel := true |} = {| cancel := true |}
  /\ exists domain,
       extractDomain simpleHostname "https://x.a.com/other.js" = Some domain
       /\ isSubdomain domain
       /\ blockingDecisions (ext demoLoop) !! domain = Some true.
Proof.
  apply (headers_phase_cancels_only_subdomains simpleHostname demoLoop
           "https://x.a.com/other.js" {| cancel := true |} demoLoop_reachable).
  reflexivity.
Defined.

Lemma cache_hits_always_block_witness :
  cachedVerdict (ext demoLoop) "x.a.com" 3000 = Some true /\ true = true.
Proof.
  split; [reflexivity|].
  apply (cache_hits_always_block simpleHostname demoLoop "x.a.com" 3000 true
           demoLoop_reachable).
  reflexivity.
Defined.

Lemma twoRequests_reachable : Reachable simpleHostname twoRequests.
Proof. unfold twoRequests, tabsOpen. do 2 apply Reachable_run. constructor. Qed.

Lemma completed_evaluation_stores_its_verdict_witness :
  exists t,
    pending twoRequests !! 0%nat = Some t
    /\ let L' := loop_step simpleHostname twoRequests (FetchSettled 0 FetchRejected 2) in
       (responses L' = responses twoRequests
        /\ length (pending L') = length (pending twoRequests))
       \/ (exists verdict,
             responses L' = responses twoRequests
                              ++ [(task_domain t, {| cancel := verdict |})]
             /\ blockingDecisions (ext L') !! task_domain t = Some verdict
             /\ S (length (pending L')) = length (pending twoRequests)).
Proof.
  eexists. split; [reflexivity|].
  apply (completed_evaluation_stores_its_verdict simpleHostname twoRequests 0 _
           FetchRejected 2 twoRequests_reachable).
  reflexivity.
Defined.

Lemma stored_entries_are_never_removed_witness :
  let L := loop_run simpleHostname demoLoop
             [ TabsAfterRemoval [];
               WebRequest "https://x.a.com/pixel.gif" 400000;
               TabUpdated (Some "https://www.a.com/"%string);
               WebRequest "https://y.a.com/pixel.gif" 400001 ] in
  is_Some (dnsCache (ext L) !! "x.a.com"%string)
  /\ is_Some (blockingDecisions (ext L) !! "x.a.com"%string).
Proof.
  cbv zeta.
  destruct (stored_entries_are_never_removed simpleHostname
              [ TabsAfterRemoval [];
                WebRequest "https://x.a.com/pixel.gif" 400000;
                TabUpdated (Some "https://www.a.com/"%string);
                WebRequest "https://y.a.com/pixel.gif" 400001 ]
              demoLoop "x.a.com") as [Hc Hd].
  split; [apply Hc | apply Hd]; eexists; reflexivity.
Defined.

Lemma active_roots_are_roots_witness :
  "a.com"%string ∈ activeRootDomains (ext demoLoop)
  /\ getRootDomain "a.com" = "a.com"%string.
Proof.
  assert ("a.com"%string ∈ activeRootDomains (ext demoLoop)) as H
    by (refine (bool_decide_unpack _ _); vm_compute; exact I).
  split; [exact H|].
  exact (active_roots_are_roots simpleHostname demoLoop "a.com"
           demoLoop_reachable H).
Defined.

Lemma lone_request_agrees_with_run_witness :
  let o1 := reply (Some [nsRecord "sub.a.com" "NS1.Reg.com"]) None in
  let o2 := reply (Some [nsRecord "a.com" "ns1.reg.com"]) None in
  let r := run (turnByTurn [0; 1000; 2000] [o1; o2])
             (decisionPromise "sub.a.com") 0 (ext tabsOpen) in
  let L' := loop_run simpleHostname tabsOpen
              [ WebRequest "https://sub.a.com/app.js" 0;
                FetchSettled 0 o1 1000; FetchSettled 0 o2 2000 ] in
  ext L' = final r
  /\ pending L' = []
  /\ responses L' = responses tabsOpen ++ [("sub.a.com"%string, value r)]
  /\ fetches L' = fetches tabsOpen ++ map fst (calls r)
  /\ evaluations L' = evaluations tabsOpen ++ ["sub.a.com"%string]
  /\ blockingDecisions (ext L') !! "sub.a.com"%string = Some (cancel (value r)).
Proof.
  apply (lone_request_agrees_with_run simpleHostname tabsOpen
           "https://sub.a.com/app.js" "sub.a.com" 0 1000 2000
           (reply (Some [nsRecord "sub.a.com" "NS1.Reg.com"]) None)
           (reply (Some [nsRecord "a.com" "ns1.reg.com"]) None));
    reflexivity.
Defined.

Example lone_request_allows :
  responses (loop_run simpleHostname tabsOpen
               [ WebRequest "https://sub.a.com/app.js" 0;
                 FetchSettled 0 (reply (Some [nsRecord "sub.a.com" "NS1.Reg.com"]) None) 1000;
                 FetchSettled 0 (reply (Some [nsRecord "a.com" "ns1.reg.com"]) None) 2000 ])
  = [("sub.a.com"%string, {| cancel := false |})].
Proof. reflexivity. Qed.
